(** * LSNMF: alternating nonnegative least squares by projected gradient

    A shallow embedding of [methods/factorization/lsnmf.py] (class [Lsnmf]):
    the subproblem solver [_subproblem] with its line search, the outer
    driver ([factorize], [_is_satisfied], [update], [objective]) and the two
    private helpers [__alleq] and [__extract].

    Modelling conventions.
    - Python floats are exact rationals ([Q]); [x < y], [x != y] and the
      truth value of a float are the rational comparisons.
    - A Python exception is a value of [exn]; code that may raise returns a
      [result].
    - A local variable that the source may read before it was assigned
      ([decr_alpha], [Hp], and [grad]/[iter] after an empty loop) is an
      [option]; reading [None] raises [UnboundLocalError].
    - An attribute of the object that a method reads is looked up by name;
      a name that the class does not bind raises [AttributeError].
    - An exception leaves the object as the statements before it set it:
      the driver passes the state on together with the exception.
    - The linear-algebra collaborator ([utils.linalg]: [dot], [norm],
      [vstack], [max], [multiply], [sop]) and numpy/scipy are not part of the
      sources; their operations are modelled by their mathematical meaning.
      The solver and the driver are modelled on dense operands; the two
      helpers that inspect the representation, [__alleq] and [__extract],
      are modelled on dense and on compressed-sparse-row operands. *)

From Stdlib Require Import String List Arith Bool Lia ZArith QArith Lqa.
Import ListNotations.

Open Scope Q_scope.

(** ** Exceptions and results *)

Inductive exn : Set :=
| UnboundLocalError
| ValueError
| AttributeError
| TypeError
| IndexError.

Inductive result (A : Type) : Type :=
| Ok (a : A)
| Raise (e : exn).

Arguments Ok {A} a.
Arguments Raise {A} e.

Definition bind {A B : Type} (c : result A) (k : A -> result B) : result B :=
  match c with
  | Ok a => k a
  | Raise e => Raise e
  end.

Notation "x <- c ;; k" := (bind c (fun x => k))
  (at level 61, c at next level, right associativity).
Notation "' p <- c ;; k" := (bind c (fun x => let p := x in k))
  (at level 61, p pattern, c at next level, right associativity).

Definition is_ok {A : Type} (c : result A) : bool :=
  match c with Ok _ => true | Raise _ => false end.

(** ** Scalars *)

(** [x < y] on floats. *)
Definition Qltb (x y : Q) : bool := negb (Qle_bool y x).

(** Truth value of a float: every value but zero is true. *)
Definition truthy (x : Q) : bool := negb (Qeq_bool x 0).

(** [operator.ne]. *)
Definition ne (x y : Q) : bool := negb (Qeq_bool x y).

(** A boolean used as a number: [True] is 1 and [False] is 0. *)
Definition b2q (b : bool) : Q := if b then 1 else 0.

(** Modelled from the spec: [sop] belongs to the collaborator [utils.linalg],
    which is not among the sources.  The spec lists "elementwise compare"
    among the collaborator's operations and calls the use of [sop] in the
    line search a "negate-equality test": on a scalar [x], [sop x s op]
    applies the comparison [op] to [x] and the scalar [s]. *)
Definition sop (x s : Q) (op : Q -> Q -> bool) : bool := op x s.

(** [max] on two scalars ([numpy.maximum]). *)
Definition smax (x s : Q) : Q := if Qltb x s then s else x.

(** A computable square root: for the reduced fraction [n / d] it is
    [floor (sqrt (n * d * 10^12)) / (d * 10^6)], the root rounded down at
    about six decimal places.  It is exact on squares of rationals and
    stands for the floating-point square root when the model is evaluated on
    concrete inputs; every theorem about the solver and the driver is stated
    for an arbitrary square-root function. *)
Definition Qsqrt (q : Q) : Q :=
  let r := Qred q in
  let s := 1000000%Z in
  let d := Z.pos (Qden r) in
  Qred (Z.sqrt (Qnum r * d * s * s) # (Qden r * 1000000)).

(** ** Dense matrices *)

Definition dense : Type := list (list Q).

Fixpoint map2 {A B C : Type} (f : A -> B -> C) (u : list A) (v : list B) : list C :=
  match u, v with
  | a :: u', b :: v' => f a b :: map2 f u' v'
  | _, _ => []
  end.

Definition sum (u : list Q) : Q := fold_right Qplus 0 u.

Definition nrows (M : dense) : nat := length M.
Definition ncols (M : dense) : nat := length (hd [] M).

(** [M[i, j]]. *)
Definition entry (M : dense) (i j : nat) : Q := nth j (nth i M []) 0.

Definition col (j : nat) (M : dense) : list Q := map (fun r => nth j r 0) M.

(** [M.T]. *)
Definition T (M : dense) : dense := map (fun j => col j M) (seq 0 (ncols M)).

Definition dotp (u v : list Q) : Q := sum (map2 Qmult u v).

(** The matrix product of [A] and [B] as a total function. *)
Definition mmul (A B : dense) : dense :=
  map (fun r => map (fun c => dotp r c) (T B)) A.

(** [dot(A, B)]: the matrix product; operands whose inner dimensions differ
    raise [ValueError]. *)
Definition dot (A B : dense) : result dense :=
  if Nat.eqb (ncols A) (nrows B) then Ok (mmul A B) else Raise ValueError.

(** [A - B] on operands of one shape. *)
Definition msub (A B : dense) : dense := map2 (map2 Qminus) A B.

(** [a * M] for a scalar [a]. *)
Definition scal (a : Q) (M : dense) : dense := map (map (Qmult a)) M.

(** [max(M, s)]: the elementwise maximum with the scalar [s]. *)
Definition mmax (M : dense) (s : Q) : dense := map (map (fun x => smax x s)) M.

(** [multiply(A, B)]: the elementwise product. *)
Definition multiply (A B : dense) : dense := map2 (map2 Qmult) A B.

(** [M.sum()]. *)
Definition msum (M : dense) : Q := sum (concat M).

(** The sum of the squares of a list of entries. *)
Definition sqsum (u : list Q) : Q := sum (map (fun x => x * x) u).

(** numpy's broadcasting of two extents: they agree, or one of them is 1 and
    is repeated. *)
Definition broadcast (a b : nat) : option nat :=
  if Nat.eqb a b then Some a
  else if Nat.eqb a 1 then Some b
  else if Nat.eqb b 1 then Some a
  else None.

(** The entry of [M] that position [(i, j)] of a broadcast result reads. *)
Definition bentry (M : dense) (i j : nat) : Q :=
  entry M (if Nat.eqb (nrows M) 1 then 0%nat else i)
          (if Nat.eqb (ncols M) 1 then 0%nat else j).

(** [(A == B).all()] on dense operands: the comparison is elementwise on the
    broadcast operands and [all] is true when no entry differs; operands
    whose extents cannot be broadcast raise. *)
Definition dense_eqb (A B : dense) : result bool :=
  match broadcast (nrows A) (nrows B), broadcast (ncols A) (ncols B) with
  | Some m, Some n =>
      Ok (forallb (fun i =>
                     forallb (fun j => Qeq_bool (bentry A i j) (bentry B i j))
                             (seq 0 n))
                  (seq 0 m))
  | _, _ => Raise ValueError
  end.

(** Shapes and nonnegativity. *)
Definition has_shape (m n : nat) (M : dense) : Prop :=
  length M = m /\ Forall (fun r => length r = n) M.

Definition nonneg_row (r : list Q) : Prop := Forall (fun x => 0 <= x) r.
Definition nonneg (M : dense) : Prop := Forall nonneg_row M.

(** ** Sparse matrices (scipy's compressed sparse row format) *)

(** The row [i] of a CSR matrix holds the stored entries
    [indptr[i] .. indptr[i+1] - 1] of [indices] (their columns) and [data]
    (their values). *)
Record csr : Type := {
  shape : nat * nat;
  indptr : list nat;
  indices : list nat;
  data : list Q
}.

Inductive Matrix : Type :=
| Dense (M : dense)
| Sparse (X : csr).

(** [sp.isspmatrix]. *)
Definition isspmatrix (X : Matrix) : bool :=
  match X with
  | Sparse _ => true
  | Dense _ => false
  end.

Definition slice {A : Type} (l : list A) (a b : nat) : list A :=
  firstn (b - a) (skipn a l).

(** The stored entries of row [i], as (column, value) pairs in storage
    order. *)
Definition row_entries (X : csr) (i : nat) : list (nat * Q) :=
  let a := nth i (indptr X) 0%nat in
  let b := nth (S i) (indptr X) 0%nat in
  combine (slice (indices X) a b) (slice (data X) a b).

Fixpoint assoc (j : nat) (r : list (nat * Q)) : option Q :=
  match r with
  | [] => None
  | (c, v) :: r' => if Nat.eqb c j then Some v else assoc j r'
  end.

(** [X[i, j]] on a CSR matrix: the value stored for column [j] in row [i],
    and zero when none is stored.  A matrix in canonical format stores a
    column at most once in a row; the lookup returns the first stored
    value. *)
Definition csr_get (X : csr) (i j : nat) : Q :=
  match assoc j (row_entries X i) with
  | Some v => v
  | None => 0
  end.

Definition grid {A : Type} (m n : nat) (f : nat -> nat -> A) : list (list A) :=
  map (fun i => map (fun j => f i j) (seq 0 n)) (seq 0 m).

Definition csr_todense (X : csr) : dense :=
  grid (fst (shape X)) (snd (shape X)) (csr_get X).

(** The entries of a matrix of either representation.  The collaborator's
    operations have the same meaning on both representations and are
    modelled on the entries. *)
Definition todense (X : Matrix) : dense :=
  match X with
  | Dense M => M
  | Sparse c => csr_todense c
  end.

(** [X[i, j]]. *)
Definition getitem (X : Matrix) (i j : nat) : Q :=
  match X with
  | Dense M => entry M i j
  | Sparse c => csr_get c i j
  end.

(** scipy's list-of-lists format: every row is a list of (column, value)
    pairs kept in increasing column order. *)
Record lil : Type := {
  lil_shape : nat * nat;
  lil_rows : list (list (nat * Q))
}.

(** [sp.lil_matrix(arg1, shape=None, dtype=None, copy=False)] called with a
    shape as [arg1] and the keyword arguments [keywords]: the empty matrix of
    that shape.  A keyword that is not a parameter of the constructor raises
    [TypeError]. *)
Definition lil_matrix (s : nat * nat) (keywords : list string) : result lil :=
  if forallb (fun k => existsb (String.eqb k)
                               ["shape"; "dtype"; "copy"]%string) keywords
  then Ok {| lil_shape := s; lil_rows := repeat [] (fst s) |}
  else Raise TypeError.

Fixpoint row_set (r : list (nat * Q)) (c : nat) (v : Q) : list (nat * Q) :=
  match r with
  | [] => [(c, v)]
  | (c', v') :: r' =>
      if Nat.ltb c c' then (c, v) :: r
      else if Nat.eqb c c' then (c, v) :: r'
      else (c', v') :: row_set r' c v
  end.

Fixpoint upd_nth {A : Type} (f : A -> A) (i : nat) (l : list A) : list A :=
  match l, i with
  | [], _ => []
  | a :: l', O => f a :: l'
  | a :: l', S i' => a :: upd_nth f i' l'
  end.

(** [R[i, c] = v].  The assigned value is stored as it is: a stored zero and
    an absent entry are the same matrix entry. *)
Definition lil_set (R : lil) (i c : nat) (v : Q) : lil :=
  {| lil_shape := lil_shape R;
     lil_rows := upd_nth (fun r => row_set r c v) i (lil_rows R) |}.

Fixpoint indptr_from (off : nat) (rows : list (list (nat * Q))) : list nat :=
  match rows with
  | [] => [off]
  | r :: rows' => off :: indptr_from (off + length r) rows'
  end.

(** [R.tocsr()]. *)
Definition tocsr (R : lil) : csr :=
  {| shape := lil_shape R;
     indptr := indptr_from 0 (lil_rows R);
     indices := concat (map (map fst) (lil_rows R));
     data := concat (map (map snd) (lil_rows R)) |}.

(** ** [__alleq]: elementwise equality of two matrices *)

(** Assignment of a tuple to two targets: a tuple of any other length raises
    [ValueError] ("too many values to unpack"). *)
Definition unpack2 {A : Type} (t : list A) : result (A * A) :=
  match t with
  | [a; b] => Ok (a, b)
  | _ => Raise ValueError
  end.

(** The [while now < upto] loop of the sparse branch: [None] when the loop
    returned [False], the final [now] otherwise. *)
Fixpoint alleq_while (todo : nat) (X : csr) (Y : Matrix) (row now : nat)
  : option nat :=
  match todo with
  | O => Some now
  | S todo' =>
      let col := nth now (indices X) 0%nat in
      if ne (csr_get X row col) (getitem Y row col) then None
      else alleq_while todo' X Y row (S now)
  end.

Fixpoint alleq_rows (rows : list nat) (X : csr) (Y : Matrix) (now : nat)
  : bool :=
  match rows with
  | [] => true
  | row :: rows' =>
      let upto := nth (S row) (indptr X) 0%nat in
      match alleq_while (upto - now) X Y row now with
      | None => false
      | Some now' => alleq_rows rows' X Y now'
      end
  end.

(** [__alleq(X, Y)].  In the sparse branch the right-hand side
    [Y, X if not sp.isspmatrix(X) and sp.isspmatrix(Y) else X, Y] is the
    tuple of [Y], the conditional expression (whose two arms are both [X])
    and [Y], assigned to the two targets [X, Y]. *)
Definition __alleq (X Y : Matrix) : result bool :=
  if isspmatrix X || isspmatrix Y then
    '(X', Y') <- unpack2
        [Y; (if negb (isspmatrix X) && isspmatrix Y then X else X); Y] ;;
    match X' with
    | Dense _ => Raise AttributeError
    | Sparse c => Ok (alleq_rows (seq 0 (fst (shape c))) c Y' 0)
    end
  else dense_eqb (todense X) (todense Y).

(** ** [__extract]: the entries that enter the projected-gradient norm *)

(** An entry is selected when the gradient is negative there or the factor
    is positive there: [X[row, col] < 0 or Y[row, col] > 0]. *)
Definition active (g y : Q) : bool := Qltb g 0 || Qltb 0 y.

(** The dense branch, [X[np.logical_or(X < 0, Y > 0)]]: the selected entries
    of [X] in row-major order. *)
Definition extract_dense (X Y : dense) : list Q :=
  concat (map2 (fun rx ry =>
                  map fst (filter (fun p => active (fst p) (snd p))
                                  (combine rx ry))) X Y).

(** The [while now < upto] loop of the sparse branch. *)
Fixpoint extract_while (todo : nat) (X : csr) (Y : Matrix) (row now : nat)
  (R : lil) : nat * lil :=
  match todo with
  | O => (now, R)
  | S todo' =>
      let col := nth now (indices X) 0%nat in
      let R' :=
        if active (csr_get X row col) (getitem Y row col)
        then lil_set R row col (csr_get X row col)
        else R in
      extract_while todo' X Y row (S now) R'
  end.

Fixpoint extract_rows (rows : list nat) (X : csr) (Y : Matrix) (now : nat)
  (R : lil) : nat * lil :=
  match rows with
  | [] => (now, R)
  | row :: rows' =>
      let upto := nth (S row) (indptr X) 0%nat in
      let '(now', R') := extract_while (upto - now) X Y row now R in
      extract_rows rows' X Y now' R'
  end.

(** The sparse branch, lines 171 to 180: [R] is created by
    [sp.lil_matrix(X.shape, format = X.format)], filled by the loop and
    returned as [R.tocsr()]. *)
Definition extract_sparse (X : csr) (Y : Matrix) : result csr :=
  R <- lil_matrix (shape X) ["format"%string] ;;
  Ok (tocsr (snd (extract_rows (seq 0 (fst (shape X))) X Y 0 R))).

(** [__extract(X, Y)]: [X] is the gradient and [Y] the factor.  The dense
    branch returns the selection as a matrix of one row; numpy does not take
    the mask that [np.logical_or] builds from the comparison of a sparse
    [Y] as an index and raises [IndexError]. *)
Definition __extract (X Y : Matrix) : result Matrix :=
  match X with
  | Sparse c => R <- extract_sparse c Y ;; Ok (Sparse R)
  | Dense M =>
      match Y with
      | Dense N => Ok (Dense [extract_dense M N])
      | Sparse _ => Raise IndexError
      end
  end.

(** ** The collaborator's norm and stacking *)

(** The squared Frobenius norm: the sum of the squares of the entries. *)
Definition sqnorm (X : Matrix) : Q := sqsum (concat (todense X)).

(** Modelled from the spec: [vstack] ("concat-stack") belongs to the
    collaborator [utils.linalg], which is not among the sources.  Its first
    argument is the sequence of the matrices to stack, as in line 150; the
    result is their vertical concatenation, and numpy refuses an empty
    sequence and matrices whose widths differ with [ValueError].  The second
    positional argument names the format of a sparse result and is not read
    when dense matrices are stacked. *)
Definition vstack (X : list Matrix) (format : option Matrix) : result Matrix :=
  match map todense X with
  | [] => Raise ValueError
  | a :: rest =>
      if forallb (fun b => Nat.eqb (ncols a) (ncols b)) rest
      then Ok (Dense (concat (a :: rest)))
      else Raise ValueError
  end.

(** A matrix used as a sequence: iterating over it yields its rows, each a
    matrix of one row. *)
Definition rows (M : dense) : list Matrix := map (fun r => Dense [r]) M.

(** ** The solver and the driver *)

(** The instance attributes of [Lsnmf] that the optimisation reads and
    writes. *)
Record Lsnmf : Type := {
  self_V : dense;
  self_W : dense;
  self_H : dense;
  gW : dense;
  gH : dense;
  init_grad : Q;
  epsW : Q;
  epsH : Q;
  min_residuals : Q;
  max_iter : option Z;
  test_conv : nat
}.

(** The local variables of [_subproblem] that live across iterations. *)
Record locals : Type := {
  loc_H : dense;
  loc_alpha : Q;
  loc_decr_alpha : option bool;
  loc_Hp : option dense
}.

(** The rate of reducing the step size. *)
Definition beta : Q := 1 # 10.

(** One outcome of a trial: the loop ended with [iter] iterations done, an
    exception left the iteration of index [iter] with the object in the state
    [self], or the model ran out of fuel. *)
Inductive outcome : Type :=
| Finished (self : Lsnmf) (cobj : Q) (iter : nat)
| Raised (e : exn) (self : Lsnmf) (iter : nat)
| OutOfFuel.

(** The number of times the body of the outer loop was entered. *)
Definition iterations (o : outcome) : option nat :=
  match o with
  | Finished _ _ iter => Some iter
  | Raised _ _ iter => Some (S iter)
  | OutOfFuel => None
  end.

(** [_set_params]: an unset or zero [min_residuals] becomes 0.001. *)
Definition _set_params (min_res : option Q) : Q :=
  match min_res with
  | Some q => if truthy q then q else 1 # 1000
  | None => 1 # 1000
  end.

(** [_is_satisfied(cobj, iter)].  The cap [max_iter] is [None] or an
    integer of either sign; as a condition every integer but zero is true. *)
Definition _is_satisfied (self : Lsnmf) (cobj : Q) (iter : nat) : bool :=
  if match max_iter self with
     | Some k => negb (Z.eqb k 0) && Z.ltb k (Z.of_nat iter)
     | None => false
     end
  then false
  else if Nat.ltb 0 iter && Qltb cobj (min_residuals self * init_grad self)
  then false
  else true.

(** Lines 110 and 111 of [_subproblem]: the two constant products [WtV] and
    [WtW], computed once before the loop. *)
Definition precompute (V W : dense) : result (dense * dense) :=
  WtV <- dot (T W) V ;;
  WtW <- dot (T W) (T W) ;;
  Ok (WtV, WtW).

(** Line 119: [grad = dot(WtW, H) - WtV]. *)
Definition gradient (WtW WtV H : dense) : result dense :=
  G <- dot WtW H ;;
  Ok (msub G WtV).

(** The proposal of one probe of the line search and its [suff_decr]:
    lines 125 to 129 of the source. *)
Definition probe (WtW grad H : dense) (alpha : Q) : result (dense * Q) :=
  let Hn := mmax (msub H (scal alpha grad)) 0 in
  let d := msub Hn H in
  let gradd := msum (multiply grad d) in
  Qd <- dot WtW d ;;
  let dQd := msum (multiply Qd d) in
  Ok (Hn, (99 # 100) * gradd + b2q (sop ((1 # 2) * dQd) 0 ne)).

(** [for n_iter in xrange(20)]: [todo] probes remain, the next one has index
    [n_iter].  The result holds the locals when the loop is left, by [break]
    or by exhaustion. *)
Fixpoint line_search (todo n_iter : nat) (WtW grad : dense) (l : locals)
  : result locals :=
  match todo with
  | O => Ok l
  | S todo' =>
      '(Hn, suff_decr) <- probe WtW grad (loc_H l) (loc_alpha l) ;;
      let l1 :=
        if Nat.eqb n_iter 1
        then {| loc_H := loc_H l; loc_alpha := loc_alpha l;
                loc_decr_alpha := Some (negb (truthy suff_decr));
                loc_Hp := Some (loc_H l) |}
        else l in
      match loc_decr_alpha l1 with
      | None => Raise UnboundLocalError
      | Some true =>
          if truthy suff_decr
          then Ok {| loc_H := Hn; loc_alpha := loc_alpha l1;
                     loc_decr_alpha := loc_decr_alpha l1;
                     loc_Hp := loc_Hp l1 |}
          else line_search todo' (S n_iter) WtW grad
                 {| loc_H := loc_H l1; loc_alpha := loc_alpha l1 * beta;
                    loc_decr_alpha := loc_decr_alpha l1;
                    loc_Hp := loc_Hp l1 |}
      | Some false =>
          match loc_Hp l1 with
          | None => Raise UnboundLocalError
          | Some Hp =>
              stop <- (if negb (truthy suff_decr) then Ok true
                       else __alleq (Dense Hp) (Dense Hn)) ;;
              if (stop : bool)
              then Ok {| loc_H := Hp; loc_alpha := loc_alpha l1;
                         loc_decr_alpha := loc_decr_alpha l1;
                         loc_Hp := loc_Hp l1 |}
              else line_search todo' (S n_iter) WtW grad
                     {| loc_H := loc_H l1; loc_alpha := loc_alpha l1 / beta;
                        loc_decr_alpha := loc_decr_alpha l1;
                        loc_Hp := Some Hn |}
          end
      end
  end.

Section Solver.

(** The square root of the collaborator's Frobenius norm. *)
Variable sqrt : Q -> Q.

(** [norm(X)]. *)
Definition norm (X : Matrix) : Q := sqrt (sqnorm X).

(** The projected-gradient norm of line 120. *)
Definition projgrad (grad H : Matrix) : result Q :=
  R <- __extract grad H ;;
  Ok (norm R).

(** [for iter in xrange(max_iter)] and the [return] after it: [todo]
    iterations remain, the next one has index [iter]; [last] holds [grad]
    and [iter] as the previous iteration left them. *)
Fixpoint iterate (todo iter : nat) (WtW WtV : dense) (eps : Q) (l : locals)
  (last : option (dense * nat)) : result (dense * dense * nat) :=
  match todo with
  | O =>
      match last with
      | None => Raise UnboundLocalError
      | Some (grad, it) => Ok (loc_H l, grad, it)
      end
  | S todo' =>
      grad <- gradient WtW WtV (loc_H l) ;;
      pg <- projgrad (Dense grad) (Dense (loc_H l)) ;;
      if Qltb pg eps
      then Ok (loc_H l, grad, iter)
      else
        l' <- line_search 20 0 WtW grad l ;;
        iterate todo' (S iter) WtW WtV eps l' (Some (grad, iter))
  end.

(** [_subproblem(V, W, Hinit, epsH, max_iter)]. *)
Definition _subproblem (V W Hinit : dense) (eps : Q) (maxiter : nat)
  : result (dense * dense * nat) :=
  '(WtV, WtW) <- precompute V W ;;
  iterate maxiter 0 WtW WtV eps
    {| loc_H := Hinit; loc_alpha := 1;
       loc_decr_alpha := None; loc_Hp := None |} None.

(** [objective()]. *)
Definition objective (self : Lsnmf) : result Q :=
  a <- __extract (Dense (gW self)) (Dense (self_W self)) ;;
  b <- __extract (Dense (gH self)) (Dense (self_H self)) ;;
  s <- vstack [a; b] None ;;
  Ok (norm s).

(** The type of the solver as a bound method. *)
Definition solver : Type :=
  dense -> dense -> dense -> Q -> nat -> result (dense * dense * nat).

(** [self.name] where a solver is called.  The class binds the solver to the
    name [_subproblem]; no statement of the class binds another name to it
    (the base class, which is not among the sources, is taken not to bind
    one either), and the lookup of any other name raises
    [AttributeError]. *)
Definition getattr (name : string) : result solver :=
  if String.eqb name "_subproblem" then Ok _subproblem
  else Raise AttributeError.

(** Lines 85 to 88 of [update]: the solve for [W]. *)
Definition update_W (self : Lsnmf) : result Lsnmf :=
  subproblem <- getattr "subproblem" ;;
  '(Wt, gWt, iter) <- subproblem (T (self_V self)) (T (self_H self))
                        (T (self_W self)) (epsW self) 1000%nat ;;
  let epsW' := if Nat.eqb iter 1 then (1 # 10) * epsW self else epsW self in
  Ok {| self_V := self_V self; self_W := T Wt; self_H := self_H self;
        gW := T gWt; gH := gH self; init_grad := init_grad self;
        epsW := epsW'; epsH := epsH self;
        min_residuals := min_residuals self;
        max_iter := max_iter self; test_conv := test_conv self |}.

(** Lines 89 and 90 of [update]: the solve for [H]. *)
Definition update_H (self : Lsnmf) : result Lsnmf :=
  subproblem <- getattr "subproblem" ;;
  '(H, gH', iter) <- subproblem (self_V self) (self_W self) (self_H self)
                       (epsH self) 1000%nat ;;
  let epsH' := if Nat.eqb iter 1 then (1 # 10) * epsH self else epsH self in
  Ok {| self_V := self_V self; self_W := self_W self; self_H := H;
        gW := gW self; gH := gH'; init_grad := init_grad self;
        epsW := epsW self; epsH := epsH';
        min_residuals := min_residuals self;
        max_iter := max_iter self; test_conv := test_conv self |}.

(** [update()]: the object as the call leaves it, and the exception when the
    call raised.  A statement that raises assigns nothing. *)
Definition update (self : Lsnmf) : Lsnmf * option exn :=
  match update_W self with
  | Raise e => (self, Some e)
  | Ok self1 =>
      match update_H self1 with
      | Raise e => (self1, Some e)
      | Ok self2 => (self2, None)
      end
  end.

(** Lines 48 to 52 of [factorize]: the state at the start of a trial, from
    the seeded [W] and [H].  Line 50 calls [vstack(self.gW, self.gH.T)]:
    [gW] is the sequence to stack and [gH.T] stands where the format is
    expected. *)
Definition init_trial (V W H : dense) (min_res : option Q)
  (maxiter : option Z) (tconv : nat) : result Lsnmf :=
  let mr := _set_params min_res in
  HHt <- dot H (T H) ;;
  WHHt <- dot W HHt ;;
  VHt <- dot V (T H) ;;
  let gW0 := msub WHHt VHt in
  WtW <- dot (T W) W ;;
  WtWH <- dot WtW H ;;
  WtV <- dot (T W) V ;;
  let gH0 := msub WtWH WtV in
  s <- vstack (rows gW0) (Some (Dense (T gH0))) ;;
  let ig := norm s in
  let eps := smax (1 # 1000) mr * ig in
  Ok {| self_V := V; self_W := W; self_H := H;
        gW := gW0; gH := gH0; init_grad := ig;
        epsW := eps; epsH := eps;
        min_residuals := mr; max_iter := maxiter; test_conv := tconv |}.

(** The [while] loop of [factorize], lines 55 to 58. *)
Fixpoint run (fuel : nat) (self : Lsnmf) (cobj : Q) (iter : nat) : outcome :=
  match fuel with
  | O => OutOfFuel
  | S fuel' =>
      if _is_satisfied self cobj iter then
        match update self with
        | (self', Some e) => Raised e self' iter
        | (self', None) =>
            match (if Nat.eqb (test_conv self') 0
                      || Nat.eqb (iter mod test_conv self') 0
                   then objective self' else Ok cobj) with
            | Raise e => Raised e self' iter
            | Ok cobj' => run fuel' self' cobj' (S iter)
            end
        end
      else Finished self cobj iter
  end.

(** One trial of [factorize], from the pair [(W, H)] that the seeding
    collaborator returned. *)
Definition factorize (fuel : nat) (V W H : dense) (min_res : option Q)
  (maxiter : option Z) (tconv : nat) : result outcome :=
  self <- init_trial V W H min_res maxiter tconv ;;
  cobj <- objective self ;;
  Ok (run fuel self cobj 0).

End Solver.

(** ** Reference definitions for the statements *)

(** The sufficient-decrease quantity in the words of the specification:
    [0.99 * (grad o d).sum() + 0.5 * ((BtB . d) o d).sum()] for the step
    [d = Hn - H] of the proposal [Hn = max(H - alpha * grad, 0)]. *)
Definition spec_suff_decr (BtB grad H : dense) (alpha : Q) : Q :=
  let Hn := mmax (msub H (scal alpha grad)) 0 in
  let d := msub Hn H in
  (99 # 100) * msum (multiply grad d)
  + (1 # 2) * msum (multiply (mmul BtB d) d).

(** The rule of the specification for one entry, "G[i,j] < 0 or
    X[i,j] > 0", decided by the order of the rationals. *)
Definition spec_active (g x : Q) : bool :=
  if Qlt_le_dec g 0 then true
  else if Qlt_le_dec 0 x then true else false.

(** The entries of [G] that the specification selects, in row-major
    order. *)
Definition selected (G X : dense) (m n : nat) : list Q :=
  flat_map (fun i =>
              flat_map (fun j =>
                          if spec_active (entry G i j) (entry X i j)
                          then [entry G i j] else [])
                       (seq 0 n))
           (seq 0 m).

(** The sum over all positions of the squares of the selected entries; an
    unselected position contributes zero. *)
Definition selected_sq (G X : dense) (m n : nat) : Q :=
  sum (map (fun i =>
              sum (map (fun j =>
                          if spec_active (entry G i j) (entry X i j)
                          then entry G i j * entry G i j else 0)
                       (seq 0 n)))
           (seq 0 m)).

Definition all_positive (M : dense) : Prop :=
  Forall (Forall (fun x => 0 < x)) M.

Definition all_zero (M : dense) : Prop :=
  Forall (Forall (fun x => x == 0)) M.

(** The invariant of the line search: the current factor, and the previous
    proposal when there is one, have no negative entry. *)
Definition locals_nonneg (l : locals) : Prop :=
  nonneg (loc_H l) /\ forall Hp, loc_Hp l = Some Hp -> nonneg Hp.

(** The state at the start of the trial of [V = [[2]]], [W = [[3]]],
    [H = [[4]]] with [min_residuals = 1]: the initial gradients are [[40]]
    and [[30]], and the initial gradient norm is the norm of [gW], 40. *)
Definition trial_1x1 (maxiter : option Z) : Lsnmf :=
  {| self_V := [[2]]; self_W := [[3]]; self_H := [[4]];
     gW := [[40]]; gH := [[30]]; init_grad := 40;
     epsW := 40; epsH := 40; min_residuals := 1;
     max_iter := maxiter; test_conv := 0 |}.

(** A gradient with one positive and one negative entry, dense and in
    compressed rows, and a factor that is positive at the first entry
    only. *)
Definition grad_2x2 : dense := [[3; 0]; [0; -4]].

Definition grad_2x2_csr : csr :=
  {| shape := (2, 2)%nat; indptr := [0; 1; 2]%nat;
     indices := [0; 1]%nat; data := [3; -4] |}.

Definition factor_2x2 : dense := [[1; 0]; [0; 0]].

Definition ones_2x2 : dense := [[1; 1]; [1; 1]].

(** The state at the start of the trial of the 3 x 2 matrix
    [V = [[1, 2], [3, 4], [5, 6]]] with all-ones factors of rank 1 and the
    default [min_residuals]. *)
Definition trial_3x2 : Lsnmf :=
  {| self_V := [[1; 2]; [3; 4]; [5; 6]];
     self_W := [[1]; [1]; [1]]; self_H := [[1; 1]];
     gW := [[-1]; [-5]; [-9]]; gH := [[-6; -9]];
     init_grad := Qsqrt 107;
     epsW := (1 # 1000) * Qsqrt 107; epsH := (1 # 1000) * Qsqrt 107;
     min_residuals := 1 # 1000; max_iter := None; test_conv := 0 |}.

(** Lines 66 and 67 of [factorize]: what a trial whose loop ended reports,
    [n_iter = iter - 1] and [final_obj = cobj]. *)
Definition report (o : outcome) : option (Z * Q) :=
  match o with
  | Finished _ cobj iter => Some ((Z.of_nat iter - 1)%Z, cobj)
  | Raised _ _ _ => None
  | OutOfFuel => None
  end.

(** * Properties *)

(** ** Scalars *)

Lemma Qltb_lt (x y : Q) : Qltb x y = true <-> x < y.
Proof.
  unfold Qltb. rewrite negb_true_iff. split; intro Hxy.
  - apply Qnot_le_lt. intro Hle. apply Qle_bool_iff in Hle. congruence.
  - destruct (Qle_bool y x) eqn:E; [|reflexivity].
    apply Qle_bool_iff in E. exfalso. apply (Qlt_not_le _ _ Hxy E).
Qed.

Lemma Qltb_ge (x y : Q) : Qltb x y = false <-> y <= x.
Proof.
  unfold Qltb. rewrite negb_false_iff. apply Qle_bool_iff.
Qed.

Lemma truthy_true (x : Q) : truthy x = true <-> ~ x == 0.
Proof.
  unfold truthy. rewrite negb_true_iff. split.
  - intros E Hx. apply Qeq_bool_iff in Hx. congruence.
  - intro Hx. destruct (Qeq_bool x 0) eqn:E; [|reflexivity].
    apply Qeq_bool_iff in E. contradiction.
Qed.

Lemma smax_nonneg (x : Q) : 0 <= smax x 0.
Proof.
  unfold smax. destruct (Qltb x 0) eqn:E.
  - apply Qle_refl.
  - now apply Qltb_ge.
Qed.

Lemma active_iff (g y : Q) : active g y = true <-> g < 0 \/ 0 < y.
Proof.
  unfold active. rewrite orb_true_iff, !Qltb_lt. tauto.
Qed.

Lemma spec_active_iff (g x : Q) : spec_active g x = true <-> g < 0 \/ 0 < x.
Proof.
  unfold spec_active.
  destruct (Qlt_le_dec g 0) as [Hg|Hg]; [tauto|].
  destruct (Qlt_le_dec 0 x) as [Hx|Hx]; [tauto|].
  split; [discriminate|].
  intros [H|H]; exfalso; [apply (Qlt_not_le _ _ H Hg) | apply (Qlt_not_le _ _ H Hx)].
Qed.

(** The test of the source agrees with the rule of the specification. *)
Lemma active_spec (g x : Q) : active g x = spec_active g x.
Proof.
  destruct (spec_active g x) eqn:E.
  - apply active_iff. now apply spec_active_iff.
  - destruct (active g x) eqn:Ea; [|reflexivity].
    apply active_iff, spec_active_iff in Ea. congruence.
Qed.

(** ** Shapes of the dense operations *)

Lemma ncols_shape (m n : nat) (M : dense) :
  has_shape m n M -> (1 <= m)%nat -> ncols M = n.
Proof.
  intros [Hl HM] Hm. destruct M as [|r M]; simpl in *; [lia|].
  unfold ncols. simpl. now inversion HM.
Qed.

Lemma nrows_T (M : dense) : nrows (T M) = ncols M.
Proof. unfold nrows, T. now rewrite length_map, length_seq. Qed.

Lemma has_shape_T (m n : nat) (M : dense) :
  has_shape m n M -> (1 <= m)%nat -> has_shape n m (T M).
Proof.
  intros HM Hm. split.
  - change (nrows (T M) = n). rewrite nrows_T. now apply (ncols_shape m).
  - unfold T. apply Forall_forall. intros c Hc.
    apply in_map_iff in Hc. destruct Hc as [j [<- _]].
    unfold col. rewrite length_map. apply HM.
Qed.

Lemma has_shape_mmul (m k n : nat) (A B : dense) :
  has_shape m k A -> has_shape k n B -> (1 <= k)%nat ->
  has_shape m n (mmul A B).
Proof.
  intros HA HB Hk. unfold mmul. split.
  - rewrite length_map. apply HA.
  - apply Forall_forall. intros r Hr.
    apply in_map_iff in Hr. destruct Hr as [r0 [<- _]].
    rewrite length_map. apply (has_shape_T k n B HB Hk).
Qed.

Lemma length_map2 {A B C : Type} (f : A -> B -> C) (u : list A) (v : list B) :
  length u = length v -> length (map2 f u v) = length u.
Proof.
  revert v. induction u as [|a u IH]; intros [|b v] E; simpl in *;
    try discriminate; auto.
Qed.

Lemma has_shape_msub (m n : nat) (A B : dense) :
  has_shape m n A -> has_shape m n B -> has_shape m n (msub A B).
Proof.
  unfold msub. revert m B.
  induction A as [|a A IH]; intros m [|b B] [HlA HA] [HlB HB]; simpl in *;
    try (subst m; discriminate).
  - split; auto.
  - inversion HA as [|? ? Ha HA']; inversion HB as [|? ? Hb HB']; subst.
    injection HlB as HlB.
    destruct (IH (length A) B) as [Hl HF]; [split; auto | split; auto |].
    split; simpl; [now rewrite Hl|].
    constructor; [|exact HF].
    rewrite length_map2; congruence.
Qed.

Lemma dot_ok (m k n : nat) (A B : dense) :
  has_shape m k A -> has_shape k n B -> (1 <= m)%nat ->
  dot A B = Ok (mmul A B).
Proof.
  intros HA HB Hm. unfold dot.
  rewrite (ncols_shape m k A HA Hm). unfold nrows.
  destruct HB as [-> _]. now rewrite Nat.eqb_refl.
Qed.

Lemma has_shape_2x2 (a b c d : Q) : has_shape 2 2 [[a; b]; [c; d]].
Proof. split; [reflexivity | repeat constructor]. Qed.

Lemma has_shape_3x1 (a b c : Q) : has_shape 3 1 [[a]; [b]; [c]].
Proof. split; [reflexivity | repeat constructor]. Qed.

Lemma has_shape_1x2 (a b : Q) : has_shape 1 2 [[a; b]].
Proof. split; [reflexivity | repeat constructor]. Qed.

(** ** [__alleq] *)

Lemma forallb_seq (p : nat -> bool) (n : nat) :
  forallb p (seq 0 n) = true <-> forall i, (i < n)%nat -> p i = true.
Proof.
  rewrite forallb_forall. split.
  - intros Hp i Hi. apply Hp. apply in_seq. lia.
  - intros Hp i Hi. apply in_seq in Hi. apply Hp. lia.
Qed.

Lemma broadcast_refl (a : nat) : broadcast a a = Some a.
Proof. unfold broadcast. now rewrite Nat.eqb_refl. Qed.

(** Inside a matrix a broadcast index is the index itself. *)
Lemma bentry_entry (m n : nat) (M : dense) (i j : nat) :
  has_shape m n M -> (i < m)%nat -> (j < n)%nat -> bentry M i j = entry M i j.
Proof.
  intros HM Hi Hj. unfold bentry.
  rewrite (ncols_shape m n M HM) by lia.
  unfold nrows. rewrite (proj1 HM).
  destruct (Nat.eqb_spec m 1) as [Em|_]; destruct (Nat.eqb_spec n 1) as [En|_];
    try reflexivity.
  - replace i with 0%nat by lia. replace j with 0%nat by lia. reflexivity.
  - replace i with 0%nat by lia. reflexivity.
  - replace j with 0%nat by lia. reflexivity.
Qed.

(** On operands of one shape the dense comparison returns, and its result
    is true exactly when the operands agree at every position. *)
Lemma dense_eqb_entries (m n : nat) (A B : dense) :
  has_shape m n A -> has_shape m n B ->
  exists b, dense_eqb A B = Ok b
            /\ (b = true <->
                forall i j, (i < m)%nat -> (j < n)%nat ->
                            entry A i j == entry B i j).
Proof.
  intros HA HB. unfold dense_eqb.
  assert (Hc : ncols A = ncols B /\ ((1 <= m)%nat -> ncols A = n)).
  { destruct (Nat.eq_dec m 0) as [Em|Hm].
    - destruct HA as [HlA _], HB as [HlB _]. subst m.
      destruct A; [|discriminate]. destruct B; [|discriminate].
      split; [reflexivity | lia].
    - rewrite (ncols_shape m n A), (ncols_shape m n B); auto; lia. }
  destruct Hc as [Hc Hn].
  unfold nrows at 1 2. rewrite (proj1 HA), (proj1 HB), <- Hc, !broadcast_refl.
  eexists. split; [reflexivity|].
  rewrite forallb_seq. split.
  - intros Hall i j Hi Hj. specialize (Hall i Hi).
    rewrite forallb_seq in Hall. rewrite Hn in Hall by lia.
    specialize (Hall j Hj). apply Qeq_bool_iff in Hall.
    now rewrite (bentry_entry m n A), (bentry_entry m n B) in Hall.
  - intros Hall i Hi. rewrite forallb_seq. rewrite Hn by lia.
    intros j Hj. apply Qeq_bool_iff.
    rewrite (bentry_entry m n A), (bentry_entry m n B) by assumption.
    now apply Hall.
Qed.

(** C10: whenever one operand of [__alleq] is sparse, the right-hand side of
    the swap is a tuple of three elements assigned to two targets, and the
    helper raises the unpacking error [ValueError] instead of returning a
    boolean; only on two dense operands does it return a boolean, which for
    operands of one shape is true exactly when they agree at every
    position. *)
Theorem alleq_sparse_unpack_error :
  (forall X Y : Matrix,
      unpack2 [Y; (if negb (isspmatrix X) && isspmatrix Y then X else X); Y]
      = Raise ValueError)
  /\ (forall (c : csr) (Y : Matrix), __alleq (Sparse c) Y = Raise ValueError)
  /\ (forall (X : Matrix) (c : csr), __alleq X (Sparse c) = Raise ValueError)
  /\ (forall (m n : nat) (A B : dense),
         has_shape m n A -> has_shape m n B ->
         exists b, __alleq (Dense A) (Dense B) = Ok b
                   /\ (b = true <->
                       forall i j, (i < m)%nat -> (j < n)%nat ->
                                   entry A i j == entry B i j)).
Proof.
  split; [| split; [| split]].
  - intros X Y. reflexivity.
  - intros c Y. reflexivity.
  - intros X c. destruct X; reflexivity.
  - intros m n A B HA HB. cbn [__alleq isspmatrix orb todense].
    now apply dense_eqb_entries.
Qed.

Lemma alleq_sparse_unpack_error_witness :
  exists b, __alleq (Dense [[3; 0]; [0; -4]]) (Dense [[3; 0]; [1; -4]]) = Ok b
            /\ (b = true <->
                forall i j, (i < 2)%nat -> (j < 2)%nat ->
                            entry [[3; 0]; [0; -4]] i j
                            == entry [[3; 0]; [1; -4]] i j).
Proof.
  apply (proj2 (proj2 (proj2 alleq_sparse_unpack_error)) 2%nat 2%nat
           [[3; 0]; [0; -4]] [[3; 0]; [1; -4]]
           (has_shape_2x2 _ _ _ _) (has_shape_2x2 _ _ _ _)).
Defined.

(** ** The line search and the solver *)

(** A line search that is entered with [decr_alpha] unbound never returns:
    the first probe has index 0, the assignment of [decr_alpha] is guarded by
    [n_iter == 1], and the test [if decr_alpha:] reads the unbound name. *)
Lemma line_search_unbound (todo : nat) (WtW grad H : dense) (alpha : Q)
  (Hp : option dense) :
  line_search (S todo) 0 WtW grad
    {| loc_H := H; loc_alpha := alpha;
       loc_decr_alpha := None; loc_Hp := Hp |}
  = match probe WtW grad H alpha with
    | Ok _ => Raise UnboundLocalError
    | Raise e => Raise e
    end.
Proof.
  simpl. destruct (probe WtW grad H alpha) as [[Hn s]|e]; reflexivity.
Qed.

Section SolverFacts.

Variable sqrt : Q -> Q.

(** On dense operands the projected-gradient norm is always defined. *)
Lemma projgrad_dense (G X : dense) :
  projgrad sqrt (Dense G) (Dense X)
  = Ok (norm sqrt (Dense [extract_dense G X])).
Proof. reflexivity. Qed.

(** X1: the solver returns only from its first iteration.  Either the
    tolerance holds at once, and the initial factor comes back unchanged
    with its gradient and the iteration count 0, or the line search is
    entered and raises. *)
Lemma subproblem_returns_initial (V W Hinit : dense) (eps : Q) (todo : nat)
  (H grad : dense) (it : nat) :
  _subproblem sqrt V W Hinit eps (S todo) = Ok (H, grad, it) ->
  H = Hinit /\ it = 0%nat
  /\ (exists pg, projgrad sqrt (Dense grad) (Dense Hinit) = Ok pg
                 /\ Qltb pg eps = true)
  /\ exists WtV WtW, precompute V W = Ok (WtV, WtW)
                     /\ gradient WtW WtV Hinit = Ok grad.
Proof.
  unfold _subproblem.
  destruct (precompute V W) as [[WtV WtW]|e]; cbn [bind]; [|discriminate].
  cbn [iterate loc_H].
  destruct (gradient WtW WtV Hinit) as [g|e] eqn:Eg; cbn [bind];
    [|discriminate].
  rewrite projgrad_dense. cbn [bind].
  destruct (Qltb (norm sqrt (Dense [extract_dense g Hinit])) eps) eqn:E.
  - intro Hok. injection Hok as <- <- <-.
    split; [reflexivity|]. split; [reflexivity|]. split.
    + eexists. split; [apply projgrad_dense | exact E].
    + exists WtV, WtW. auto.
  - rewrite line_search_unbound.
    destruct (probe WtW g Hinit 1) as [[Hn s]|e]; cbn [bind]; discriminate.
Qed.

End SolverFacts.

Lemma subproblem_returns_initial_witness :
  [[4]] = [[4]] /\ 0%nat = 0%nat
  /\ (exists pg, projgrad Qsqrt (Dense [[30]]) (Dense [[4]]) = Ok pg
                 /\ Qltb pg 50 = true)
  /\ exists WtV WtW, precompute [[2]] [[3]] = Ok (WtV, WtW)
                     /\ gradient WtW WtV [[4]] = Ok [[30]].
Proof.
  apply (subproblem_returns_initial Qsqrt [[2]] [[3]] [[4]] 50 999
           [[4]] [[30]] 0).
  vm_compute. reflexivity.
Defined.

(** C4: the line search does not decide its mode on the first probe.  The
    probes are numbered from 0 and the mode is assigned under
    [if n_iter == 1], so the first probe tests [decr_alpha] before any
    assignment: a line search entered with fresh locals never returns, for
    any operands and any number of probes, and the solver raises
    [UnboundLocalError] on every input that does not meet the tolerance at
    once, here [V = [[1]]], [W = [[2]]], [Hinit = [[1]]], [eps = 0.001]. *)
Theorem line_search_first_probe_unbound :
  (forall (todo : nat) (WtW grad H : dense) (alpha : Q),
      is_ok (line_search (S todo) 0 WtW grad
               {| loc_H := H; loc_alpha := alpha;
                  loc_decr_alpha := None; loc_Hp := None |}) = false)
  /\ line_search 20 0 [[4]] [[2]]
       {| loc_H := [[1]]; loc_alpha := 1;
          loc_decr_alpha := None; loc_Hp := None |}
     = Raise UnboundLocalError
  /\ _subproblem Qsqrt [[1]] [[2]] [[1]] (1 # 1000) 1000
     = Raise UnboundLocalError.
Proof.
  split; [| split].
  - intros todo WtW grad H alpha. rewrite line_search_unbound.
    destruct (probe WtW grad H alpha); reflexivity.
  - reflexivity.
  - vm_compute. reflexivity.
Qed.

(** C2: the quantity that the line search computes and tests is not the
    sufficient-decrease quantity.  For [V = [[1]]], [W = [[2]]],
    [H = [[1]]], [alpha = 1] the products are [WtV = [[2]]], [WtW = [[4]]],
    the gradient is [[2]], the proposal is [[0]]; the source's [suff_decr]
    is [0.99 * (-2) + (2 != 0) = -0.98], which is true as a condition, while
    [0.99 * gradd + 0.5 * dQd = 0.02] is not negative. *)
Theorem suff_decr_is_not_sufficient_decrease :
  precompute [[1]] [[2]] = Ok ([[2]], [[4]])
  /\ gradient [[4]] [[2]] [[1]] = Ok [[2]]
  /\ probe [[4]] [[2]] [[1]] 1 = Ok ([[0]], -98 # 100)
  /\ truthy (-98 # 100) = true
  /\ spec_suff_decr [[4]] [[2]] [[1]] 1 == 2 # 100
  /\ Qltb (spec_suff_decr [[4]] [[2]] [[1]] 1) 0 = false.
Proof.
  repeat (split; [vm_compute; reflexivity|]). vm_compute. reflexivity.
Qed.

(** C3: the second precomputed product is [dot(W.T, W.T)], not
    [dot(W.T, W)].  For the square basis [W = [[1, 1], [0, 1]]] it is
    [[1, 0], [2, 1]] where the Gram matrix is [[1, 1], [1, 2]], and the
    gradient returned for [V = H = [[1], [1]]] is [[0], [1]] where
    [(W.T W) H - W.T V] is [[1], [1]]; for a basis that is not square, here
    [W = [[1], [1]]], the product raises [ValueError]. *)
Theorem precompute_WtW_is_not_gram :
  precompute [[1]; [1]] [[1; 1]; [0; 1]] = Ok ([[1]; [2]], [[1; 0]; [2; 1]])
  /\ mmul (T [[1; 1]; [0; 1]]) [[1; 1]; [0; 1]] = [[1; 1]; [1; 2]]
  /\ _subproblem Qsqrt [[1]; [1]] [[1; 1]; [0; 1]] [[1]; [1]] 100 1000
     = Ok ([[1]; [1]], [[0]; [1]], 0%nat)
  /\ msub (mmul (mmul (T [[1; 1]; [0; 1]]) [[1; 1]; [0; 1]]) [[1]; [1]])
          (mmul (T [[1; 1]; [0; 1]]) [[1]; [1]]) = [[1]; [1]]
  /\ precompute [[1]; [1]] [[1]; [1]] = Raise ValueError.
Proof.
  repeat (split; [vm_compute; reflexivity|]). vm_compute. reflexivity.
Qed.

(** ** The update *)

Section UpdateFacts.

Variable sqrt : Q -> Q.

(** Every update raises [AttributeError] at line 85, before the first solve
    and before any assignment. *)
Lemma update_raises (self : Lsnmf) :
  update sqrt self = (self, Some AttributeError).
Proof. reflexivity. Qed.

(** One step of the outer loop: the body is entered when the stopping
    predicate allows it, and is left by the exception of the update. *)
Lemma run_step (fuel : nat) (self : Lsnmf) (cobj : Q) (iter : nat) :
  run sqrt (S fuel) self cobj iter
  = if _is_satisfied self cobj iter
    then Raised AttributeError self iter
    else Finished self cobj iter.
Proof. cbn [run]. rewrite update_raises. reflexivity. Qed.

End UpdateFacts.

(** C1: the optimisation raises on valid input.  With [V = [[2]]],
    [W = [[3]]], [H = [[4]]] and the default parameters the first update
    raises [AttributeError]: line 85 calls the solver as [self.subproblem],
    a name that the class does not bind, and so does every update on every
    state.  The solver itself, called with the operands that line 85 names,
    raises [UnboundLocalError] (the line search reads [decr_alpha] before it
    is assigned); with the 3 x 2 matrix [V = [[1,2],[3,4],[5,6]]] and
    all-ones factors of rank 1 both solves raise [ValueError] (the product
    [dot(W.T, W.T)] of a basis that is not square). *)
Theorem update_raises_on_valid_input :
  (exists self,
      factorize Qsqrt 100 [[2]] [[3]] [[4]] None (Some 50%Z) 0
      = Ok (Raised AttributeError self 0)
      /\ self_W self = [[3]] /\ self_H self = [[4]])
  /\ (forall self : Lsnmf, update Qsqrt self = (self, Some AttributeError))
  /\ _subproblem Qsqrt (T [[2]]) (T [[4]]) (T [[3]]) (4 # 100) 1000
     = Raise UnboundLocalError
  /\ (forall eps : Q,
         _subproblem Qsqrt (T [[1; 2]; [3; 4]; [5; 6]]) (T [[1; 1]])
           (T [[1]; [1]; [1]]) eps 1000 = Raise ValueError)
  /\ (forall eps : Q,
         _subproblem Qsqrt [[1; 2]; [3; 4]; [5; 6]] [[1]; [1]; [1]]
           [[1; 1]] eps 1000 = Raise ValueError).
Proof.
  split; [| split; [| split; [| split]]].
  - eexists. split; [vm_compute; reflexivity|]. split; reflexivity.
  - intro self. reflexivity.
  - vm_compute. reflexivity.
  - intro eps. reflexivity.
  - intro eps. reflexivity.
Qed.

(** ** Nonnegativity of the factors *)

Lemma mmax_nonneg (M : dense) : nonneg (mmax M 0).
Proof.
  unfold nonneg, mmax, nonneg_row. apply Forall_forall. intros r Hr.
  apply in_map_iff in Hr. destruct Hr as [r0 [<- _]].
  apply Forall_forall. intros x Hx.
  apply in_map_iff in Hx. destruct Hx as [x0 [<- _]].
  apply smax_nonneg.
Qed.

Lemma nonneg_nth (r : list Q) (j : nat) : nonneg_row r -> 0 <= nth j r 0.
Proof.
  intro Hr. destruct (Nat.lt_ge_cases j (length r)) as [Hj|Hj].
  - unfold nonneg_row in Hr. rewrite Forall_forall in Hr.
    apply Hr. now apply nth_In.
  - rewrite nth_overflow by exact Hj. apply Qle_refl.
Qed.

Lemma nonneg_T (M : dense) : nonneg M -> nonneg (T M).
Proof.
  intro HM. unfold nonneg, T. apply Forall_forall. intros c Hc.
  apply in_map_iff in Hc. destruct Hc as [j [<- _]].
  unfold col, nonneg_row. apply Forall_forall. intros x Hx.
  apply in_map_iff in Hx. destruct Hx as [r [<- Hr]].
  apply nonneg_nth. unfold nonneg in HM. rewrite Forall_forall in HM. auto.
Qed.

Lemma probe_nonneg (WtW grad H : dense) (alpha : Q) (Hn : dense) (s : Q) :
  probe WtW grad H alpha = Ok (Hn, s) -> nonneg Hn.
Proof.
  unfold probe.
  destruct (dot WtW _) as [Qd|e]; simpl; [|discriminate].
  intro E. injection E as <- _. apply mmax_nonneg.
Qed.

(** Every way out of the line search leaves a factor without negative
    entries: the accepted factor is the projected proposal [Hn] or the
    remembered [Hp], which is the current factor or an earlier proposal. *)
Lemma line_search_nonneg (WtW grad : dense) (todo : nat) :
  forall (n_iter : nat) (l l' : locals),
    locals_nonneg l ->
    line_search todo n_iter WtW grad l = Ok l' ->
    locals_nonneg l'.
Proof.
  induction todo as [|todo IH]; intros n_iter l l' Hl E;
    cbn [line_search] in E.
  - injection E as <-. exact Hl.
  - destruct (probe WtW grad (loc_H l) (loc_alpha l)) as [[Hn s]|e] eqn:Ep;
      cbn [bind] in E; [|discriminate].
    apply probe_nonneg in Ep. destruct Hl as [HH HHp].
    set (l1 := if Nat.eqb n_iter 1
               then {| loc_H := loc_H l; loc_alpha := loc_alpha l;
                       loc_decr_alpha := Some (negb (truthy s));
                       loc_Hp := Some (loc_H l) |}
               else l) in E.
    assert (Hl1 : locals_nonneg l1).
    { subst l1. destruct (Nat.eqb n_iter 1); split; simpl; auto.
      intros Hp Eq. injection Eq as <-. exact HH. }
    destruct Hl1 as [HH1 HHp1].
    destruct (loc_decr_alpha l1) as [[|]|]; [| |discriminate].
    + destruct (truthy s).
      * injection E as <-. split; simpl; auto.
      * apply IH in E; [exact E|]. split; simpl; auto.
    + destruct (loc_Hp l1) as [Hp|] eqn:EHp; [|discriminate].
      destruct (if negb (truthy s) then Ok true
                else __alleq (Dense Hp) (Dense Hn)) as [[|]|e];
        cbn [bind] in E; [| |discriminate].
      * injection E as <-. split; simpl; auto.
      * apply IH in E; [exact E|]. split; simpl; auto.
        intros Hp' Eq. injection Eq as <-. exact Ep.
Qed.

Section Invariant.

Variable sqrt : Q -> Q.

Lemma iterate_nonneg (WtW WtV : dense) (eps : Q) (todo : nat) :
  forall (iter : nat) (l : locals) (last : option (dense * nat))
         (H grad : dense) (it : nat),
    locals_nonneg l ->
    iterate sqrt todo iter WtW WtV eps l last = Ok (H, grad, it) ->
    nonneg H.
Proof.
  induction todo as [|todo IH]; intros iter l last H grad it Hl E;
    cbn [iterate] in E.
  - destruct last as [[g i]|]; [|discriminate].
    injection E as <- _ _. exact (proj1 Hl).
  - destruct (gradient WtW WtV (loc_H l)) as [g|e]; cbn [bind] in E;
      [|discriminate].
    rewrite projgrad_dense in E. cbn [bind] in E.
    destruct (Qltb _ eps).
    + injection E as <- _ _. exact (proj1 Hl).
    + destruct (line_search 20 0 WtW g l) as [l'|e] eqn:El;
        cbn [bind] in E; [|discriminate].
      apply (IH _ _ _ _ _ _ (line_search_nonneg _ _ _ _ _ _ Hl El) E).
Qed.

Lemma subproblem_nonneg (V W Hinit : dense) (eps : Q) (maxiter : nat)
  (H grad : dense) (it : nat) :
  nonneg Hinit ->
  _subproblem sqrt V W Hinit eps maxiter = Ok (H, grad, it) ->
  nonneg H.
Proof.
  intros Hn. unfold _subproblem.
  destruct (precompute V W) as [[WtV WtW]|e]; cbn [bind]; [|discriminate].
  apply iterate_nonneg. split; simpl; [exact Hn | discriminate].
Qed.

(** The state in which a loop of the driver ends, by exhaustion of the
    stopping predicate or by an exception. *)
Lemma run_state (fuel : nat) :
  forall (self : Lsnmf) (cobj : Q) (iter : nat),
    match run sqrt fuel self cobj iter with
    | Finished self' _ _ => self' = self
    | Raised _ self' _ => self' = self
    | OutOfFuel => fuel = 0%nat
    end.
Proof.
  destruct fuel as [|fuel]; intros self cobj iter; [reflexivity|].
  rewrite run_step. destruct (_is_satisfied self cobj iter); reflexivity.
Qed.

End Invariant.

(** C7: nonnegativity is an invariant of the update step.  An update leaves
    [W] and [H] without negative entries, whether it returns or raises, and
    so does every state in which the loop of a trial ends.  A factor that
    the solver returns is the initial one, a projected proposal
    [max(H - alpha * grad, 0)] or a remembered earlier factor: every
    proposal of a probe is that projection and has no negative entry, every
    way out of a line search keeps the current factor and the remembered
    proposal nonnegative, and so every factor that a solve returns is
    nonnegative. *)
Theorem update_preserves_nonnegativity (sqrt : Q -> Q) (self : Lsnmf) :
  nonneg (self_W self) -> nonneg (self_H self) ->
  (nonneg (self_W (fst (update sqrt self)))
   /\ nonneg (self_H (fst (update sqrt self))))
  /\ (forall fuel cobj iter,
         match run sqrt fuel self cobj iter with
         | Finished self' _ _ | Raised _ self' _ =>
             nonneg (self_W self') /\ nonneg (self_H self')
         | OutOfFuel => fuel = 0%nat
         end)
  /\ (forall V eps maxiter Wt gWt it,
         _subproblem sqrt (T V) (T (self_H self)) (T (self_W self)) eps maxiter
         = Ok (Wt, gWt, it) -> nonneg (T Wt))
  /\ (forall V B eps maxiter H' gH' it,
         _subproblem sqrt V B (self_H self) eps maxiter = Ok (H', gH', it) ->
         nonneg H')
  /\ (forall WtW grad alpha Hn s,
         probe WtW grad (self_H self) alpha = Ok (Hn, s) ->
         Hn = mmax (msub (self_H self) (scal alpha grad)) 0 /\ nonneg Hn)
  /\ (forall WtW grad todo n_iter alpha da Hp l',
         (forall Hp', Hp = Some Hp' -> nonneg Hp') ->
         line_search todo n_iter WtW grad
           {| loc_H := self_H self; loc_alpha := alpha;
              loc_decr_alpha := da; loc_Hp := Hp |} = Ok l' ->
         nonneg (loc_H l')).
Proof.
  intros HW HH. split; [| split; [| split; [| split; [| split]]]].
  - rewrite update_raises. now split.
  - intros fuel cobj iter.
    pose proof (run_state sqrt fuel self cobj iter) as Hs.
    destruct (run sqrt fuel self cobj iter) as [s c i|e s i|];
      [subst s; now split | subst s; now split | exact Hs].
  - intros V eps maxiter Wt gWt it E. apply nonneg_T.
    apply (subproblem_nonneg sqrt _ _ _ _ _ _ _ _ (nonneg_T _ HW) E).
  - intros V B eps maxiter H' gH' it E.
    apply (subproblem_nonneg sqrt _ _ _ _ _ _ _ _ HH E).
  - intros WtW grad alpha Hn s E. split; [|exact (probe_nonneg _ _ _ _ _ _ E)].
    unfold probe in E.
    destruct (dot WtW _) as [Qd|e]; cbn [bind] in E; [|discriminate].
    now injection E as <- _.
  - intros WtW grad todo n_iter alpha da Hp l' HHp E.
    refine (proj1 (line_search_nonneg _ _ _ _ _ _ _ E)).
    split; [exact HH | exact HHp].
Qed.

Lemma nonneg_1 : nonneg [[1]].
Proof. repeat constructor. discriminate. Qed.

Lemma nonneg_2 : nonneg [[2]].
Proof. repeat constructor. discriminate. Qed.

(** The probe of [H = [[1]]] with the gradient [[2]] and the step 1 proposes
    [1 - 2 = -1], which the projection replaces by 0. *)
Lemma update_preserves_nonnegativity_witness :
  [[0]] = mmax (msub [[1]] (scal 1 [[2]])) 0 /\ nonneg [[0]].
Proof.
  apply (proj1 (proj2 (proj2 (proj2 (proj2
           (update_preserves_nonnegativity Qsqrt
              {| self_V := [[1]]; self_W := [[2]]; self_H := [[1]];
                 gW := [[1]]; gH := [[2]]; init_grad := 1;
                 epsW := 1 # 1000; epsH := 1 # 1000;
                 min_residuals := 1 # 1000;
                 max_iter := None; test_conv := 0 |}
              nonneg_2 nonneg_1)))))
           [[4]] [[2]] 1 [[0]] (-98 # 100)).
  vm_compute. reflexivity.
Defined.

(** ** The stopping predicate and the iteration cap *)


(** At [iter = 0] the stopping predicate only looks at the sign of the
    cap. *)
Lemma is_satisfied_at_zero (self : Lsnmf) (cobj : Q) :
  _is_satisfied self cobj 0
  = match max_iter self with
    | Some k => negb (Z.ltb k 0)
    | None => true
    end.
Proof.
  unfold _is_satisfied. destruct (max_iter self) as [k|]; [|reflexivity].
  change (Z.of_nat 0) with 0%Z.
  destruct (Z.eqb_spec k 0) as [->|Hk]; [reflexivity|].
  cbn [negb andb]. destruct (Z.ltb k 0); reflexivity.
Qed.

Section Driver.

Variable sqrt : Q -> Q.



End Driver.



(** ** The start of a trial *)

Lemma concat_singletons {A : Type} (l : list A) :
  concat (map (fun x => [x]) l) = l.
Proof. induction l as [|a l IH]; [reflexivity|]. simpl. now rewrite IH. Qed.

(** A matrix passed as the sequence to stack comes back as it is: its rows
    are stacked again, and the second positional argument is not read. *)
Lemma vstack_rows (m n : nat) (M : dense) (format : option Matrix) :
  has_shape m n M -> (1 <= m)%nat ->
  vstack (rows M) format = Ok (Dense M).
Proof.
  intros [Hl HF] Hm. unfold vstack, rows. rewrite map_map. cbn [todense].
  destruct M as [|r M]; [simpl in Hl; lia|]. cbn [map].
  inversion HF as [|? ? Hr HF']; subst.
  match goal with
  | |- (if ?c then _ else _) = _ => assert (Hall : c = true)
  end.
  { apply forallb_forall. intros b Hb.
    apply in_map_iff in Hb. destruct Hb as [x [<- Hx]].
    unfold ncols. cbn [hd]. apply Nat.eqb_eq.
    rewrite Forall_forall in HF'. symmetry. now apply HF'. }
  rewrite Hall. change ([r] :: map (fun x => [x]) M)
    with (map (fun x => [x]) (r :: M)).
  now rewrite concat_singletons.
Qed.

Section Start.

Variable sqrt : Q -> Q.

(** The state that lines 48 to 52 build. *)
Lemma init_trial_ok (m r n : nat) (V W H : dense)
  (min_res : option Q) (maxiter : option Z) (tconv : nat) :
  (1 <= m)%nat -> (1 <= r)%nat -> (1 <= n)%nat ->
  has_shape m n V -> has_shape m r W -> has_shape r n H ->
  let gW0 := msub (mmul W (mmul H (T H))) (mmul V (T H)) in
  let gH0 := msub (mmul (mmul (T W) W) H) (mmul (T W) V) in
  let ig := norm sqrt (Dense gW0) in
  let eps := smax (1 # 1000) (_set_params min_res) * ig in
  init_trial sqrt V W H min_res maxiter tconv
  = Ok {| self_V := V; self_W := W; self_H := H;
          gW := gW0; gH := gH0; init_grad := ig;
          epsW := eps; epsH := eps;
          min_residuals := _set_params min_res;
          max_iter := maxiter; test_conv := tconv |}.
Proof.
  intros Hm Hr Hn HV HW HH gW0 gH0 ig eps.
  assert (HHt : has_shape n r (T H)) by now apply has_shape_T.
  assert (HWt : has_shape r m (T W)) by now apply has_shape_T.
  assert (HHHt : has_shape r r (mmul H (T H)))
    by now apply (has_shape_mmul r n r).
  assert (HWtW : has_shape r r (mmul (T W) W))
    by now apply (has_shape_mmul r m r).
  assert (HgW : has_shape m r gW0).
  { apply has_shape_msub.
    - now apply (has_shape_mmul m r r).
    - now apply (has_shape_mmul m n r). }
  unfold init_trial.
  rewrite (dot_ok r n r H (T H)) by assumption. cbn [bind].
  rewrite (dot_ok m r r W _) by assumption. cbn [bind].
  rewrite (dot_ok m n r V (T H)) by assumption. cbn [bind].
  rewrite (dot_ok r m r (T W) W) by assumption. cbn [bind].
  rewrite (dot_ok r r n _ H) by assumption. cbn [bind].
  rewrite (dot_ok r m n (T W) V) by assumption. cbn [bind].
  fold gW0 gH0. rewrite (vstack_rows m r gW0 _ HgW Hm). reflexivity.
Qed.

End Start.

(** C9: the initial gradient norm is not the norm of the two gradients
    stacked.  Line 50 calls [vstack(self.gW, self.gH.T)]: the sequence that
    is stacked is [gW] alone, and [gH.T] stands where the format is
    expected.  For [V = [[2]]], [W = [[3]]], [H = [[4]]] and
    [min_residuals = 1] the gradients are [gW = [[40]]] and [gH = [[30]]]
    as the formulas say, but [init_grad] is [norm(gW) = 40], where the norm
    of [gW] stacked over [gH.T] is 50, and both tolerances are 40.  Line
    150 passes the two matrices as one list. *)
Theorem init_grad_ignores_gH :
  init_trial Qsqrt [[2]] [[3]] [[4]] (Some 1) None 0
  = Ok {| self_V := [[2]]; self_W := [[3]]; self_H := [[4]];
          gW := [[40]]; gH := [[30]]; init_grad := 40;
          epsW := 40; epsH := 40; min_residuals := 1;
          max_iter := None; test_conv := 0 |}
  /\ msub (mmul [[3]] (mmul [[4]] (T [[4]]))) (mmul [[2]] (T [[4]])) = [[40]]
  /\ msub (mmul (mmul (T [[3]]) [[3]]) [[4]]) (mmul (T [[3]]) [[2]]) = [[30]]
  /\ vstack (rows [[40]]) (Some (Dense (T [[30]]))) = Ok (Dense [[40]])
  /\ vstack [Dense [[40]]; Dense (T [[30]])] None = Ok (Dense [[40]; [30]])
  /\ norm Qsqrt (Dense [[40]]) = 40
  /\ norm Qsqrt (Dense [[40]; [30]]) = 50.
Proof.
  repeat (split; [vm_compute; reflexivity|]). vm_compute. reflexivity.
Qed.

(** X18: the state at the start of a trial.  For [V] of shape m x n and
    seeded factors [W] (m x r) and [H] (r x n) every product of lines 48
    and 49 is defined; the state holds [gW = W (H H^T) - V H^T] and
    [gH = (W^T W) H - W^T V]; [init_grad] is the norm of [gW]; an unset or
    zero [min_residuals] becomes 0.001; and both tolerances are [init_grad]
    times the larger of 0.001 and [min_residuals]. *)
Theorem init_trial_state (sqrt : Q -> Q) (m r n : nat) (V W H : dense)
  (min_res : option Q) (maxiter : option Z) (tconv : nat) :
  (1 <= m)%nat -> (1 <= r)%nat -> (1 <= n)%nat ->
  has_shape m n V -> has_shape m r W -> has_shape r n H ->
  exists self,
    init_trial sqrt V W H min_res maxiter tconv = Ok self
    /\ self_W self = W /\ self_H self = H
    /\ gW self = msub (mmul W (mmul H (T H))) (mmul V (T H))
    /\ gH self = msub (mmul (mmul (T W) W) H) (mmul (T W) V)
    /\ init_grad self = sqrt (sqsum (concat (gW self)))
    /\ epsH self = epsW self
    /\ (min_res = None \/ (exists q, min_res = Some q /\ q == 0) ->
        min_residuals self = 1 # 1000)
    /\ (forall q, min_res = Some q -> ~ q == 0 -> min_residuals self = q)
    /\ (min_residuals self <= 1 # 1000 ->
        epsW self == (1 # 1000) * init_grad self)
    /\ (1 # 1000 <= min_residuals self ->
        epsW self == min_residuals self * init_grad self).
Proof.
  intros Hm Hr Hn HV HW HH. eexists.
  split; [apply (init_trial_ok sqrt m r n); assumption|].
  cbn [self_W self_H gW gH init_grad epsW epsH min_residuals].
  repeat (split; [reflexivity|]).
  split; [| split; [| split]].
  - intros [->|[q [-> Hq]]]; [reflexivity|].
    unfold _set_params, truthy.
    apply Qeq_bool_iff in Hq. now rewrite Hq.
  - intros q -> Hq. unfold _set_params.
    apply truthy_true in Hq. now rewrite Hq.
  - intro Hle. unfold smax.
    destruct (Qltb (1 # 1000) (_set_params min_res)) eqn:E; [|reflexivity].
    apply Qltb_lt in E. exfalso. apply (Qlt_not_le _ _ E Hle).
  - intro Hle. unfold smax.
    destruct (Qltb (1 # 1000) (_set_params min_res)) eqn:E; [reflexivity|].
    apply Qltb_ge in E.
    assert (Heq : _set_params min_res == 1 # 1000) by now apply Qle_antisym.
    now rewrite Heq.
Qed.

Lemma init_trial_state_witness :
  exists self,
    init_trial Qsqrt [[1; 2]; [3; 4]; [5; 6]] [[1]; [1]; [1]] [[1; 1]]
      (Some (1 # 2000)) None 0 = Ok self
    /\ self_W self = [[1]; [1]; [1]] /\ self_H self = [[1; 1]]
    /\ gW self = msub (mmul [[1]; [1]; [1]] (mmul [[1; 1]] (T [[1; 1]])))
                      (mmul [[1; 2]; [3; 4]; [5; 6]] (T [[1; 1]]))
    /\ gH self = msub (mmul (mmul (T [[1]; [1]; [1]]) [[1]; [1]; [1]])
                            [[1; 1]])
                      (mmul (T [[1]; [1]; [1]]) [[1; 2]; [3; 4]; [5; 6]])
    /\ init_grad self = Qsqrt (sqsum (concat (gW self)))
    /\ epsH self = epsW self
    /\ (Some (1 # 2000) = None
        \/ (exists q, Some (1 # 2000) = Some q /\ q == 0) ->
        min_residuals self = 1 # 1000)
    /\ (forall q, Some (1 # 2000) = Some q -> ~ q == 0 ->
                  min_residuals self = q)
    /\ (min_residuals self <= 1 # 1000 ->
        epsW self == (1 # 1000) * init_grad self)
    /\ (1 # 1000 <= min_residuals self ->
        epsW self == min_residuals self * init_grad self).
Proof.
  apply (init_trial_state Qsqrt 3 1 2); try lia.
  - split; [reflexivity | repeat constructor].
  - apply has_shape_3x1.
  - apply has_shape_1x2.
Defined.

(** ** Sums *)

Lemma sum_app (u v : list Q) : sum (u ++ v) == sum u + sum v.
Proof.
  induction u as [|a u IH]; simpl.
  - now rewrite Qplus_0_l.
  - rewrite IH. now rewrite Qplus_assoc.
Qed.

Lemma sum_ext {A : Type} (f g : A -> Q) (l : list A) :
  (forall x, In x l -> f x == g x) -> sum (map f l) == sum (map g l).
Proof.
  induction l as [|a l IH]; intro Hfg; simpl.
  - reflexivity.
  - rewrite (Hfg a) by now left. rewrite IH; [reflexivity|].
    intros x Hx. apply Hfg. now right.
Qed.

Lemma sqsum_app (u v : list Q) : sqsum (u ++ v) == sqsum u + sqsum v.
Proof. unfold sqsum. rewrite map_app. apply sum_app. Qed.

Lemma sqsum_flat_map {A : Type} (f : A -> list Q) (l : list A) :
  sqsum (flat_map f l) == sum (map (fun x => sqsum (f x)) l).
Proof.
  induction l as [|a l IH]; simpl.
  - reflexivity.
  - now rewrite sqsum_app, IH.
Qed.

(** ** The dense branch of [__extract] *)

Lemma map_seq_shift {A : Type} (f : nat -> A) (n : nat) :
  map f (seq 1 n) = map (fun j => f (S j)) (seq 0 n).
Proof. now rewrite <- seq_shift, map_map. Qed.

Lemma flat_map_seq_shift {A : Type} (f : nat -> list A) (n : nat) :
  flat_map f (seq 1 n) = flat_map (fun j => f (S j)) (seq 0 n).
Proof. now rewrite !flat_map_concat_map, map_seq_shift. Qed.

Lemma extract_row_selected (rx ry : list Q) :
  length rx = length ry ->
  map fst (filter (fun p => active (fst p) (snd p)) (combine rx ry))
  = flat_map (fun j => if spec_active (nth j rx 0) (nth j ry 0)
                       then [nth j rx 0] else [])
             (seq 0 (length rx)).
Proof.
  revert ry. induction rx as [|x rx IH]; intros [|y ry] E; simpl in *;
    try discriminate; [reflexivity|].
  injection E as E. rewrite flat_map_seq_shift. simpl.
  rewrite <- (IH ry E), active_spec. destruct (spec_active x y); reflexivity.
Qed.

Lemma extract_dense_selected (m n : nat) (G X : dense) :
  has_shape m n G -> has_shape m n X ->
  extract_dense G X = selected G X m n.
Proof.
  unfold extract_dense, selected, entry. revert m X.
  induction G as [|g G IH]; intros m [|x X] [HlG HG] [HlX HX]; simpl in *;
    try (subst m; discriminate).
  - subst m. reflexivity.
  - inversion HG as [|? ? Hg HG']; inversion HX as [|? ? Hx HX']; subst.
    injection HlX as HlX. simpl. rewrite flat_map_seq_shift. simpl.
    rewrite (IH (length G) X) by (split; auto).
    rewrite extract_row_selected by congruence.
    reflexivity.
Qed.

Lemma sqsum_cell (a : bool) (g : Q) :
  sqsum (if a then [g] else []) == (if a then g * g else 0).
Proof.
  destruct a; unfold sqsum; simpl; [apply Qplus_0_r | reflexivity].
Qed.

Lemma sqsum_selected (G X : dense) (m n : nat) :
  sqsum (selected G X m n) == selected_sq G X m n.
Proof.
  unfold selected, selected_sq. rewrite sqsum_flat_map.
  apply sum_ext. intros i _. rewrite sqsum_flat_map.
  apply sum_ext. intros j _. apply sqsum_cell.
Qed.

(** The selection holds the entries at the positions where the gradient is
    negative or the factor is positive, and no other. *)
Lemma In_selected (G X : dense) (m n : nat) (q : Q) :
  In q (selected G X m n) <->
  exists i j, (i < m)%nat /\ (j < n)%nat /\ q = entry G i j
              /\ (entry G i j < 0 \/ 0 < entry X i j).
Proof.
  unfold selected. rewrite in_flat_map. split.
  - intros [i [Hi Hq]]. apply in_flat_map in Hq. destruct Hq as [j [Hj Hq]].
    apply in_seq in Hi. apply in_seq in Hj.
    destruct (spec_active (entry G i j) (entry X i j)) eqn:Ea;
      [|contradiction].
    destruct Hq as [<-|[]]. exists i, j.
    repeat split; try lia. now apply spec_active_iff.
  - intros [i [j [Hi [Hj [-> Ha]]]]]. exists i.
    split; [apply in_seq; lia|]. apply in_flat_map. exists j.
    split; [apply in_seq; lia|].
    apply spec_active_iff in Ha. rewrite Ha. now left.
Qed.

Lemma extract_row_all (rx ry : list Q) :
  length rx = length ry -> Forall (fun y => 0 < y) ry ->
  map fst (filter (fun p => active (fst p) (snd p)) (combine rx ry)) = rx.
Proof.
  revert ry. induction rx as [|x rx IH]; intros [|y ry] E Hp; simpl in *;
    try discriminate; [reflexivity|].
  injection E as E. inversion Hp as [|? ? Hy Hp']; subst.
  assert (Ha : active x y = true) by (apply active_iff; now right).
  rewrite Ha. simpl. now rewrite IH.
Qed.

Lemma extract_row_none (rx ry : list Q) :
  nonneg_row rx -> Forall (fun y => y == 0) ry ->
  map fst (filter (fun p => active (fst p) (snd p)) (combine rx ry)) = [].
Proof.
  revert ry. induction rx as [|x rx IH]; intros [|y ry] Hx Hy; simpl;
    try reflexivity.
  inversion Hx as [|? ? Hx0 Hx']; inversion Hy as [|? ? Hy0 Hy']; subst.
  assert (Ha : active x y = false).
  { destruct (active x y) eqn:E; [|reflexivity].
    apply active_iff in E. destruct E as [E|E].
    - exfalso. apply (Qlt_not_le _ _ E Hx0).
    - rewrite Hy0 in E. exfalso. apply (Qlt_irrefl _ E). }
  rewrite Ha. now apply IH.
Qed.

Lemma extract_dense_all (m n : nat) (G X : dense) :
  has_shape m n G -> has_shape m n X -> all_positive X ->
  extract_dense G X = concat G.
Proof.
  unfold extract_dense. revert m X.
  induction G as [|g G IH]; intros m [|x X] [HlG HG] [HlX HX] Hp; simpl in *;
    try (subst m; discriminate); [reflexivity|].
  inversion HG as [|? ? Hg HG']; inversion HX as [|? ? Hx HX'];
    inversion Hp as [|? ? Hpx Hp']; subst.
  injection HlX as HlX.
  rewrite extract_row_all by (auto; congruence).
  f_equal. apply (IH (length G) X); [split; auto | split; auto | exact Hp'].
Qed.

Lemma extract_dense_none (G X : dense) :
  nonneg G -> all_zero X -> extract_dense G X = [].
Proof.
  unfold extract_dense. revert X.
  induction G as [|g G IH]; intros [|x X] Hg Hz; simpl; try reflexivity.
  inversion Hg as [|? ? Hg0 Hg']; inversion Hz as [|? ? Hz0 Hz']; subst.
  rewrite extract_row_none by assumption. simpl. now apply IH.
Qed.

Lemma extract_row_zero (rx ry : list Q) :
  length rx = length ry -> Forall (fun y => y == 0) ry ->
  map fst (filter (fun p => active (fst p) (snd p)) (combine rx ry))
  = filter (fun g => if Qlt_le_dec g 0 then true else false) rx.
Proof.
  revert ry. induction rx as [|x rx IH]; intros [|y ry] E Hz; simpl in *;
    try discriminate; [reflexivity|].
  injection E as E. inversion Hz as [|? ? Hy Hz']; subst.
  rewrite active_spec. unfold spec_active.
  destruct (Qlt_le_dec x 0) as [Hx|Hx]; simpl.
  - now rewrite IH.
  - destruct (Qlt_le_dec 0 y) as [Hpos|_]; [|now apply IH].
    rewrite Hy in Hpos. exfalso. apply (Qlt_irrefl _ Hpos).
Qed.

Lemma extract_dense_zero (m n : nat) (G X : dense) :
  has_shape m n G -> has_shape m n X -> all_zero X ->
  extract_dense G X
  = filter (fun g => if Qlt_le_dec g 0 then true else false) (concat G).
Proof.
  unfold extract_dense. revert m X.
  induction G as [|g G IH]; intros m [|x X] [HlG HG] [HlX HX] Hz; simpl in *;
    try (subst m; discriminate); [reflexivity|].
  inversion HG as [|? ? Hg HG']; inversion HX as [|? ? Hx HX'];
    inversion Hz as [|? ? Hzx Hz']; subst.
  injection HlX as HlX.
  rewrite extract_row_zero by (auto; congruence).
  rewrite filter_app. f_equal.
  apply (IH (length G) X); [split; auto | split; auto | exact Hz'].
Qed.

(** ** The projected-gradient norm *)

(** C6: on the sparse code path the projected-gradient norm is not
    computed.  Line 171 creates the result by
    [sp.lil_matrix(X.shape, format = X.format)]; the constructor has no
    parameter [format] and raises [TypeError], so the extraction and the
    norm raise for every gradient in compressed rows, here the gradient
    [[3, 0], [0, -4]] with a factor that is positive at the first entry
    only, for which the dense path selects 3 and -4 and returns the
    norm 5. *)
Theorem extract_sparse_raises_type_error :
  (forall (G : csr) (X : Matrix), __extract (Sparse G) X = Raise TypeError)
  /\ (forall (sqrt : Q -> Q) (G : csr) (X : Matrix),
         projgrad sqrt (Sparse G) X = Raise TypeError)
  /\ lil_matrix (shape grad_2x2_csr) ["format"%string] = Raise TypeError
  /\ csr_todense grad_2x2_csr = grad_2x2
  /\ __extract (Sparse grad_2x2_csr) (Dense factor_2x2) = Raise TypeError
  /\ __extract (Dense grad_2x2) (Dense factor_2x2) = Ok (Dense [[3; -4]])
  /\ projgrad Qsqrt (Dense grad_2x2) (Dense factor_2x2) = Ok 5.
Proof.
  split; [intros G X; reflexivity|].
  split; [intros sqrt G X; reflexivity|].
  repeat (split; [vm_compute; reflexivity|]). vm_compute. reflexivity.
Qed.

(** X19: on dense operands of one shape the projected-gradient norm is the
    Frobenius norm over the selected entries.  The extraction is the
    row-major list of the entries [G[i, j]] with [G[i, j] < 0] or
    [X[i, j] > 0], and the norm is the square root of the sum over all
    positions of [G[i, j]^2] where the entry is selected and of zero
    elsewhere. *)
Theorem projgrad_dense_selects (sqrt : Q -> Q) (m n : nat) (G X : dense) :
  has_shape m n G -> has_shape m n X ->
  __extract (Dense G) (Dense X) = Ok (Dense [selected G X m n])
  /\ (forall q, In q (selected G X m n) <->
                exists i j, (i < m)%nat /\ (j < n)%nat /\ q = entry G i j
                            /\ (entry G i j < 0 \/ 0 < entry X i j))
  /\ projgrad sqrt (Dense G) (Dense X)
     = Ok (sqrt (sqsum (selected G X m n)))
  /\ sqsum (selected G X m n)
     == sum (map (fun i =>
                    sum (map (fun j =>
                                if Qlt_le_dec (entry G i j) 0
                                then entry G i j * entry G i j
                                else if Qlt_le_dec 0 (entry X i j)
                                     then entry G i j * entry G i j
                                     else 0)
                             (seq 0 n)))
                 (seq 0 m)).
Proof.
  intros HG HX.
  assert (E : __extract (Dense G) (Dense X) = Ok (Dense [selected G X m n])).
  { cbn [__extract]. now rewrite (extract_dense_selected m n). }
  split; [exact E|]. split; [apply In_selected|]. split.
  - unfold projgrad. rewrite E. cbn [bind]. unfold norm, sqnorm.
    cbn [todense concat]. now rewrite app_nil_r.
  - rewrite sqsum_selected. unfold selected_sq.
    apply sum_ext. intros i _. apply sum_ext. intros j _.
    unfold spec_active.
    destruct (Qlt_le_dec (entry G i j) 0); [reflexivity|].
    destruct (Qlt_le_dec 0 (entry X i j)); reflexivity.
Qed.

Lemma projgrad_dense_selects_witness :
  projgrad Qsqrt (Dense grad_2x2) (Dense factor_2x2)
  = Ok (Qsqrt (sqsum (selected grad_2x2 factor_2x2 2 2))).
Proof.
  apply (projgrad_dense_selects Qsqrt 2 2 grad_2x2 factor_2x2
           (has_shape_2x2 _ _ _ _) (has_shape_2x2 _ _ _ _)).
Defined.

(** ** The extremes of the extraction *)

(** C8 (as amended): on dense operands of one shape, with an all-positive
    factor the extraction keeps every entry of the gradient; with an
    all-zero factor it keeps exactly the negative entries of the gradient,
    and so none when the gradient has no negative entry.  The result is the
    kept entries in row-major order as a single row. *)
Theorem extract_extremes (m n : nat) (G X : dense) :
  has_shape m n G -> has_shape m n X ->
  (all_positive X -> __extract (Dense G) (Dense X) = Ok (Dense [concat G]))
  /\ (all_zero X ->
      __extract (Dense G) (Dense X)
      = Ok (Dense [filter (fun g => if Qlt_le_dec g 0 then true else false)
                          (concat G)]))
  /\ (nonneg G -> all_zero X ->
      __extract (Dense G) (Dense X) = Ok (Dense [[]])).
Proof.
  intros HG HX. split; [| split].
  - intro Hp. cbn [__extract]. now rewrite (extract_dense_all m n).
  - intro Hz. cbn [__extract]. now rewrite (extract_dense_zero m n).
  - intros Hn Hz. cbn [__extract]. now rewrite extract_dense_none.
Qed.

Lemma all_positive_ones : all_positive ones_2x2.
Proof. repeat (constructor; try reflexivity). Qed.

Lemma extract_extremes_witness :
  __extract (Dense grad_2x2) (Dense ones_2x2) = Ok (Dense [[3; 0; 0; -4]]).
Proof.
  apply (proj1 (extract_extremes 2 2 grad_2x2 ones_2x2
                  (has_shape_2x2 _ _ _ _) (has_shape_2x2 _ _ _ _))).
  exact all_positive_ones.
Defined.

(** C8, the claim as stated fails.  The all-nonpositive gradient [[-1]]
    with the all-zero factor [[0]] keeps its negative entry, where the claim
    expects a zero matrix; and the 2 x 1 gradient [[1], [2]] with an
    all-positive factor comes back as the 1 x 2 row [[1, 2]], not in the
    shape of the gradient. *)
Lemma extract_keeps_negative_entries :
  __extract (Dense [[-1]]) (Dense [[0]]) = Ok (Dense [[-1]])
  /\ __extract (Dense [[1]; [2]]) (Dense [[1]; [1]]) = Ok (Dense [[1; 2]]).
Proof. split; reflexivity. Qed.

(** * Further properties of the driver and the helpers *)

(** ** Shapes that the solver accepts *)

Lemma dot_raises_only (A B : dense) (e : exn) :
  dot A B = Raise e -> e = ValueError.
Proof.
  unfold dot. destruct (Nat.eqb _ _); [discriminate|].
  intro E. now injection E.
Qed.

Lemma dot_ok_inv (A B C : dense) : dot A B = Ok C -> C = mmul A B.
Proof.
  unfold dot. destruct (Nat.eqb _ _); [|discriminate].
  intro E. now injection E.
Qed.

Lemma precompute_nonsquare (m r : nat) (V W : dense) :
  has_shape m r W -> (1 <= m)%nat -> (1 <= r)%nat -> m <> r ->
  precompute V W = Raise ValueError.
Proof.
  intros HW Hm Hr Hne. unfold precompute.
  destruct (dot (T W) V) as [WtV|e] eqn:E1; cbn [bind].
  - unfold dot.
    rewrite (ncols_shape r m (T W) (has_shape_T m r W HW Hm) Hr).
    rewrite nrows_T, (ncols_shape m r W HW Hm).
    destruct (Nat.eqb_spec m r); [contradiction | reflexivity].
  - now rewrite (dot_raises_only _ _ _ E1).
Qed.

Lemma subproblem_nonsquare (sqrt : Q -> Q) (m r : nat) (V W Hinit : dense)
  (eps : Q) (maxiter : nat) :
  has_shape m r W -> (1 <= m)%nat -> (1 <= r)%nat -> m <> r ->
  _subproblem sqrt V W Hinit eps maxiter = Raise ValueError.
Proof.
  intros HW Hm Hr Hne. unfold _subproblem.
  now rewrite (precompute_nonsquare m r V W HW Hm Hr Hne).
Qed.

(** X6: the solver raises [ValueError] for every basis that is not square,
    whatever the constant matrix, the initial factor, the tolerance and the
    iteration budget are: the product [dot(W.T, W.T)] of line 111 is only
    defined when [W] has as many rows as columns. *)
Theorem subproblem_needs_square_basis (sqrt : Q -> Q) (m r : nat)
  (V W Hinit : dense) (eps : Q) (maxiter : nat) :
  has_shape m r W -> (1 <= m)%nat -> (1 <= r)%nat -> m <> r ->
  _subproblem sqrt V W Hinit eps maxiter = Raise ValueError.
Proof.
  apply subproblem_nonsquare.
Qed.

Lemma subproblem_needs_square_basis_witness :
  _subproblem Qsqrt (self_V trial_3x2) (self_W trial_3x2) (self_H trial_3x2)
    (epsH trial_3x2) 1000 = Raise ValueError.
Proof.
  apply (subproblem_needs_square_basis Qsqrt 3 1 _ _ _ _ 1000
           (has_shape_3x1 1 1 1)); lia.
Defined.

(** ** The objective on dense operands *)

Lemma length_concat_shape (m n : nat) (M : dense) :
  has_shape m n M -> length (concat M) = (m * n)%nat.
Proof.
  revert m. induction M as [|r M IH]; intros m [Hl HF]; simpl in *.
  - now subst m.
  - inversion HF as [|? ? Hr HF']; subst.
    rewrite length_app, (IH (length M)) by (split; auto). lia.
Qed.

Section Objective.

Variable sqrt : Q -> Q.

Lemma objective_dense (self : Lsnmf) :
  objective sqrt self
  = if Nat.eqb (length (extract_dense (gW self) (self_W self)))
               (length (extract_dense (gH self) (self_H self)))
    then Ok (sqrt (sqsum (extract_dense (gW self) (self_W self)
                          ++ extract_dense (gH self) (self_H self))))
    else Raise ValueError.
Proof.
  unfold objective. cbn [__extract bind]. unfold vstack.
  cbn [map todense forallb]. unfold ncols. cbn [hd].
  rewrite andb_true_r. destruct (Nat.eqb _ _); cbn [bind]; [|reflexivity].
  unfold norm, sqnorm. cbn [todense app concat]. now rewrite app_nil_r.
Qed.

Lemma vstack_raises_only (X : list Matrix) (format : option Matrix)
  (e : exn) :
  vstack X format = Raise e -> e = ValueError.
Proof.
  unfold vstack. destruct (map todense X) as [|a rest].
  - intro E. now injection E.
  - destruct (forallb _ rest); [discriminate|].
    intro E. now injection E.
Qed.

Lemma init_trial_inv (V W H : dense) (min_res : option Q)
  (maxiter : option Z) (tconv : nat) :
  match init_trial sqrt V W H min_res maxiter tconv with
  | Ok self =>
      self_W self = W /\ self_H self = H
      /\ gW self = msub (mmul W (mmul H (T H))) (mmul V (T H))
      /\ gH self = msub (mmul (mmul (T W) W) H) (mmul (T W) V)
  | Raise e => e = ValueError
  end.
Proof.
  unfold init_trial.
  repeat match goal with
         | |- context [bind (dot ?a ?b) _] =>
             let E := fresh "E" in
             destruct (dot a b) as [?|?] eqn:E; cbn [bind];
             [apply dot_ok_inv in E; subst
             | exact (dot_raises_only _ _ _ E)]
         end.
  destruct (vstack _ _) as [s|e] eqn:Ev; cbn [bind].
  - repeat split.
  - exact (vstack_raises_only _ _ _ Ev).
Qed.


End Objective.

(** X8: on dense operands the objective is defined exactly when the two
    extractions select equally many entries.  Each extraction is a single
    row of selected entries, so stacking them fails with [ValueError] when
    their lengths differ; otherwise the objective is the root of the sum of
    the squares of all selected entries of [gW] and of [gH]. *)
Theorem objective_needs_equal_selections (sqrt : Q -> Q) (self : Lsnmf) :
  objective sqrt self
  = (if Nat.eqb (length (extract_dense (gW self) (self_W self)))
                (length (extract_dense (gH self) (self_H self)))
     then Ok (sqrt (sqsum (extract_dense (gW self) (self_W self)
                           ++ extract_dense (gH self) (self_H self))))
     else Raise ValueError)
  /\ exists a b,
       __extract (Dense (gW self)) (Dense (self_W self)) = Ok a
       /\ __extract (Dense (gH self)) (Dense (self_H self)) = Ok b
       /\ sqsum (extract_dense (gW self) (self_W self)
                 ++ extract_dense (gH self) (self_H self))
          == sqnorm a + sqnorm b.
Proof.
  split; [apply objective_dense|].
  eexists. eexists. split; [reflexivity|]. split; [reflexivity|].
  unfold sqnorm. cbn [todense concat]. rewrite !app_nil_r.
  apply sqsum_app.
Qed.

(** X9: with strictly positive seeds a matrix that is not square cannot be
    factorized.  For [V] of shape m x n with [m <> n] and all-positive [W]
    (m x r) and [H] (r x n), every entry of both gradients is selected, the
    two extractions have [m * r] and [r * n] entries, and the objective of
    line 53 raises [ValueError] before the first update. *)
Theorem positive_seeds_need_square_V (sqrt : Q -> Q) (m r n : nat)
  (V W H : dense) (min_res : option Q) (maxiter : option Z)
  (tconv fuel : nat) :
  has_shape m n V -> has_shape m r W -> has_shape r n H ->
  (1 <= m)%nat -> (1 <= r)%nat -> (1 <= n)%nat ->
  all_positive W -> all_positive H -> m <> n ->
  factorize sqrt fuel V W H min_res maxiter tconv = Raise ValueError.
Proof.
  intros HV HW HH Hm Hr Hn HpW HpH Hne. unfold factorize.
  pose proof (init_trial_inv sqrt V W H min_res maxiter tconv) as Hinit.
  destruct (init_trial sqrt V W H min_res maxiter tconv) as [self|e];
    cbn [bind]; [|now subst e].
  destruct Hinit as [EW [EH [EgW EgH]]].
  assert (HHt : has_shape n r (T H)) by now apply has_shape_T.
  assert (HWt : has_shape r m (T W)) by now apply has_shape_T.
  assert (HgW : has_shape m r (gW self)).
  { rewrite EgW. apply has_shape_msub.
    - apply (has_shape_mmul m r r); auto.
      now apply (has_shape_mmul r n r).
    - now apply (has_shape_mmul m n r). }
  assert (HgH : has_shape r n (gH self)).
  { rewrite EgH. apply has_shape_msub.
    - apply (has_shape_mmul r r n); auto.
      now apply (has_shape_mmul r m r).
    - now apply (has_shape_mmul r m n). }
  rewrite objective_dense, EW, EH.
  rewrite (extract_dense_all m r) by assumption.
  rewrite (extract_dense_all r n) by assumption.
  rewrite (length_concat_shape m r), (length_concat_shape r n) by assumption.
  destruct (Nat.eqb_spec (m * r) (r * n)) as [E|_]; [|reflexivity].
  exfalso. apply Hne. nia.
Qed.

Lemma all_positive_ones_3x1 : all_positive [[1]; [1]; [1]].
Proof. repeat (constructor; try reflexivity). Qed.

Lemma all_positive_ones_1x2 : all_positive [[1; 1]].
Proof. repeat (constructor; try reflexivity). Qed.

Lemma positive_seeds_need_square_V_witness :
  factorize Qsqrt 100 [[1; 2]; [3; 4]; [5; 6]] [[1]; [1]; [1]] [[1; 1]]
    None (Some 50%Z) 0 = Raise ValueError.
Proof.
  apply (positive_seeds_need_square_V Qsqrt 3 1 2); try lia.
  - split; [reflexivity | repeat constructor].
  - apply has_shape_3x1.
  - apply has_shape_1x2.
  - exact all_positive_ones_3x1.
  - exact all_positive_ones_1x2.
Defined.

(** ** The first iteration and the exceptions of a trial *)

Section Trial.

Variable sqrt : Q -> Q.

(** The loop of a trial, whatever the fuel: it ends at once when the cap is
    negative, and is left by the exception of the first update
    otherwise. *)
Lemma run_from_zero (fuel : nat) (self : Lsnmf) (cobj : Q) :
  run sqrt (S fuel) self cobj 0
  = match max_iter self with
    | Some k => if Z.ltb k 0 then Finished self cobj 0
                else Raised AttributeError self 0
    | None => Raised AttributeError self 0
    end.
Proof.
  rewrite run_step, is_satisfied_at_zero.
  destruct (max_iter self) as [k|]; [|reflexivity].
  destruct (Z.ltb k 0); reflexivity.
Qed.







End Trial.

(** X10: the body of the outer loop is entered in every trial whose cap is
    not negative.  At [iter = 0] the stopping predicate holds whatever
    [min_residuals] and the initial objective are, for an unset cap and for
    every cap from 0 on, so the first update is called, and its exception
    leaves the loop in that first iteration. *)
Theorem first_iteration_always_entered (sqrt : Q -> Q) (fuel : nat)
  (self : Lsnmf) (cobj : Q) :
  (forall k, max_iter self = Some k -> (0 <= k)%Z) ->
  _is_satisfied self cobj 0 = true
  /\ run sqrt (S fuel) self cobj 0 = Raised AttributeError self 0
  /\ iterations (run sqrt (S fuel) self cobj 0) = Some 1%nat.
Proof.
  intro Hcap.
  assert (Hs : _is_satisfied self cobj 0 = true).
  { rewrite is_satisfied_at_zero. destruct (max_iter self) as [k|];
      [|reflexivity].
    specialize (Hcap k eq_refl).
    destruct (Z.ltb_spec k 0); [lia | reflexivity]. }
  split; [exact Hs|]. rewrite run_step, Hs. split; reflexivity.
Qed.

Lemma first_iteration_always_entered_witness :
  _is_satisfied (trial_1x1 (Some 0%Z)) 50 0 = true
  /\ run Qsqrt 1 (trial_1x1 (Some 0%Z)) 50 0
     = Raised AttributeError (trial_1x1 (Some 0%Z)) 0
  /\ iterations (run Qsqrt 1 (trial_1x1 (Some 0%Z)) 50 0) = Some 1%nat.
Proof.
  apply (first_iteration_always_entered Qsqrt 0 (trial_1x1 (Some 0%Z)) 50).
  intros k E. injection E as <-. lia.
Defined.


(** X16: what a finished trial reports.  The loop of a trial ends normally
    only when the cap is negative; then no update was called, the state and
    the objective are those of the initialisation, and the trial reports
    [n_iter = -1] and the initial objective as [final_obj]. *)
Theorem finished_trial_reports (sqrt : Q -> Q) (fuel : nat) (self self' : Lsnmf)
  (cobj cobj' : Q) (iter : nat) :
  run sqrt fuel self cobj 0 = Finished self' cobj' iter ->
  (exists k, max_iter self = Some k /\ (k < 0)%Z)
  /\ self' = self /\ cobj' = cobj /\ iter = 0%nat
  /\ report (run sqrt fuel self cobj 0) = Some ((-1)%Z, cobj).
Proof.
  destruct fuel as [|fuel]; [discriminate|].
  rewrite run_from_zero.
  destruct (max_iter self) as [k|]; [|discriminate].
  destruct (Z.ltb_spec k 0) as [Hlt|Hge]; [|discriminate].
  intro E. injection E as <- <- <-.
  split; [now exists k|]. repeat split.
Qed.

Lemma finished_trial_reports_witness :
  (exists k, max_iter (trial_1x1 (Some (-1)%Z)) = Some k /\ (k < 0)%Z)
  /\ trial_1x1 (Some (-1)%Z) = trial_1x1 (Some (-1)%Z)
  /\ 50 = 50 /\ 0%nat = 0%nat
  /\ report (run Qsqrt 1 (trial_1x1 (Some (-1)%Z)) 50 0)
     = Some ((-1)%Z, 50).
Proof.
  apply (finished_trial_reports Qsqrt 1 (trial_1x1 (Some (-1)%Z))
           (trial_1x1 (Some (-1)%Z)) 50 50 0).
  reflexivity.
Defined.

(** ** [__alleq] on dense operands *)

(** X12: on two dense operands of one shape [__alleq] returns [True]
    exactly when the operands agree at every position, and it never
    raises. *)
Theorem alleq_dense_entries (m n : nat) (A B : dense) :
  has_shape m n A -> has_shape m n B ->
  (__alleq (Dense A) (Dense B) = Ok true <->
   forall i j, (i < m)%nat -> (j < n)%nat -> entry A i j == entry B i j)
  /\ is_ok (__alleq (Dense A) (Dense B)) = true.
Proof.
  intros HA HB. cbn [__alleq isspmatrix orb todense].
  destruct (dense_eqb_entries m n A B HA HB) as [b [E Hb]]. rewrite E.
  split; [|reflexivity]. rewrite <- Hb.
  split; [intro E'; now injection E' | intros ->; reflexivity].
Qed.

Lemma alleq_dense_entries_witness :
  __alleq (Dense grad_2x2) (Dense grad_2x2) = Ok true.
Proof.
  apply (proj1 (alleq_dense_entries 2 2 grad_2x2 grad_2x2
                  (has_shape_2x2 _ _ _ _) (has_shape_2x2 _ _ _ _))).
  intros i j _ _. apply Qeq_refl.
Defined.

(** ** The projected step *)

Lemma entry_descent (g h alpha : Q) :
  0 <= h -> 0 <= alpha -> g * (smax (h - alpha * g) 0 - h) <= 0.
Proof.
  intros Hh Ha. unfold smax. destruct (Qltb (h - alpha * g) 0) eqn:E.
  - apply Qltb_lt in E.
    destruct (Qlt_le_dec g 0) as [Hg|Hg].
    + assert (Hag : alpha * g <= 0) by nra. lra.
    + assert (Hgh : 0 <= g * h) by nra. lra.
  - apply Qltb_ge in E.
    assert (Hgg : 0 <= alpha * (g * g)) by nra. lra.
Qed.

Lemma row_descent (alpha : Q) (g : list Q) :
  forall h, nonneg_row h -> 0 <= alpha ->
            sum (map2 Qmult g
                   (map2 Qminus
                      (map (fun x => smax x 0)
                           (map2 Qminus h (map (Qmult alpha) g))) h)) <= 0.
Proof.
  induction g as [|x g IH]; intros [|y h] Hh Ha; simpl;
    try apply Qle_refl.
  inversion Hh as [|? ? Hy Hh']; subst.
  pose proof (entry_descent x y alpha Hy Ha) as Hx.
  pose proof (IH h Hh' Ha) as Hrest.
  lra.
Qed.

Lemma matrix_descent (alpha : Q) (grad : dense) :
  forall H, nonneg H -> 0 <= alpha ->
            msum (multiply grad
                    (msub (mmax (msub H (scal alpha grad)) 0) H)) <= 0.
Proof.
  unfold msum, multiply, msub, mmax, scal.
  induction grad as [|g grad IH]; intros [|h H] HH Ha; simpl;
    try apply Qle_refl.
  inversion HH as [|? ? Hh HH']; subst.
  rewrite sum_app.
  pose proof (row_descent alpha g h Hh Ha) as Hrow.
  pose proof (IH H HH' Ha) as Hrest.
  lra.
Qed.

(** X13: the projected step never points uphill.  For a factor without
    negative entries and a step size that is not negative, the proposal
    [Hn = max(H - alpha * grad, 0)] of a probe satisfies
    [(grad o (Hn - H)).sum() <= 0], so the value that the probe computes,
    [0.99 * gradd] plus a boolean, is at most 1. *)
Theorem probe_step_is_descent (WtW grad H : dense) (alpha : Q)
  (Hn : dense) (s : Q) :
  nonneg H -> 0 <= alpha ->
  probe WtW grad H alpha = Ok (Hn, s) ->
  Hn = mmax (msub H (scal alpha grad)) 0
  /\ msum (multiply grad (msub Hn H)) <= 0
  /\ s <= 1.
Proof.
  intros HH Ha. unfold probe.
  destruct (dot WtW _) as [Qd|e]; cbn [bind]; [|discriminate].
  intro E. injection E as <- <-.
  pose proof (matrix_descent alpha grad H HH Ha) as Hd.
  split; [reflexivity|]. split; [exact Hd|].
  assert (Hb : forall b, b2q b <= 1) by (intros [|]; discriminate).
  pose proof (Hb (sop ((1 # 2)
                       * msum (multiply Qd
                                 (msub (mmax (msub H (scal alpha grad)) 0) H)))
                      0 ne)) as Hb'.
  lra.
Qed.

Lemma probe_step_is_descent_witness :
  [[0]] = mmax (msub [[1]] (scal 1 [[2]])) 0
  /\ msum (multiply [[2]] (msub [[0]] [[1]])) <= 0
  /\ -98 # 100 <= 1.
Proof.
  apply (probe_step_is_descent [[4]] [[2]] [[1]] 1 [[0]] (-98 # 100)).
  - repeat constructor. discriminate.
  - discriminate.
  - vm_compute. reflexivity.
Defined.

(** ** The iteration budget of the solver *)

(** X17: the iteration budget of the solver has no effect.  The outcome of
    a solve is decided in its first iteration, so every budget of at least
    one iteration gives the same result, and an empty budget raises (the
    [return] reads [grad] and [iter], which the loop never assigned) unless
    the precomputed products already did. *)
Theorem subproblem_budget_irrelevant (sqrt : Q -> Q) (V W Hinit : dense)
  (eps : Q) (a b : nat) :
  _subproblem sqrt V W Hinit eps (S a) = _subproblem sqrt V W Hinit eps (S b)
  /\ is_ok (_subproblem sqrt V W Hinit eps 0) = false.
Proof.
  unfold _subproblem.
  destruct (precompute V W) as [[WtV WtW]|e]; cbn [bind];
    [|split; reflexivity].
  split; [|reflexivity].
  cbn [iterate loc_H].
  destruct (gradient WtW WtV Hinit) as [g|e]; cbn [bind]; [|reflexivity].
  rewrite projgrad_dense. cbn [bind].
  destruct (Qltb (norm sqrt (Dense [extract_dense g Hinit])) eps);
    [reflexivity|].
  rewrite line_search_unbound.
  destruct (probe WtW g Hinit 1) as [p|e]; reflexivity.
Qed.
